(** * Slack / Google-Calendar reminder bot: the reminder core of index.js

    A shallow embedding of the functions [ymdInTZ], [addDays],
    [getUpcomingEvents], [sendSlackReminder], [checkCalendarAndNotify],
    [cleanDescription] and [main], and the properties of the dedup /
    classification logic that the specification states about them.  The revision embedded
    is the latest one, with [cleanDescription] and the RUN_ONCE mode; the
    earlier revisions differ in [sendSlackReminder] and in how the date of
    an all-day event is obtained.

    Conventions
    - a JavaScript string is the list of its UTF-16 code units;
    - a [Date] is its time value (milliseconds since the epoch, a [Z]) or
      [None] for an Invalid Date.  [setDate] does not apply [TimeClip]: the
      time values meant are those a [Date] can hold ([inDateRange]), as the
      process clock and the instants of calendar events are; a statement
      about [addDays] on arbitrary dates carries that range as a hypothesis;
    - the year of a date is printed as the number it is, which is what
      [Intl.DateTimeFormat] prints for the years of the Common Era; earlier
      years, which Intl prints as years of the era before, are not meant
      ([commonEra]);
    - a value that is thrown, or that a promise is rejected with, is an
      [Error] object, as the clients of Google and Slack reject with; a
      rejection with [undefined] or [null] is not modelled;
    - [runCycles] is a chain of runs each finished before the next starts;
      runs started by cron ticks may overlap, which [Task], [resume] and
      [runSchedule] describe;
    - what the platform supplies (time-zone database, host time zone,
      [Date.parse], the en-US medium/short formatter) is gathered in the
      record [Platform];
    - [console.log] / [console.error] calls are left out: they have no effect
      on the reminded sets or on what is posted to Slack. *)

From Stdlib Require Import ZArith NArith List Bool Lia String Ascii.
From Stdlib Require Import DecimalString DecimalZ.
From stdpp Require Import gmap list.

Local Open Scope Z_scope.

(** ** JavaScript strings *)

Abbreviation jsstring := (list N).

Definition lit (s : string) : jsstring :=
  map N_of_ascii (list_ascii_of_string s).

(** [!s] is false exactly for the empty string. *)
Definition nonEmpty (s : jsstring) : bool :=
  match s with [] => false | _ :: _ => true end.

(** Truthiness of an optional string property ([undefined] is falsy). *)
Definition truthy (o : option jsstring) : bool :=
  match o with Some s => nonEmpty s | None => false end.

(** ** Calendar arithmetic (proleptic Gregorian, as ECMA-262 and Intl use) *)

Definition msPerDay : Z := 86400000.

Definition Day (t : Z) : Z := t / msPerDay.
Definition TimeWithinDay (t : Z) : Z := t mod msPerDay.
Definition MakeDate (day time : Z) : Z := day * msPerDay + time.

(** Civil date of a day number within one 400-year era that starts on
    March 1st: year of era, month (1..12, March-based shift undone), day. *)
Definition yoe_of_doe (doe : Z) : Z :=
  (doe - doe / 1460 + doe / 36524 - doe / 146096) / 365.

Definition doy_of_doe (doe : Z) : Z :=
  let yoe := yoe_of_doe doe in
  doe - (365 * yoe + yoe / 4 - yoe / 100).

Definition mp_of_doy (doy : Z) : Z := (5 * doy + 2) / 153.

Definition month_of_mp (mp : Z) : Z := if mp <? 10 then mp + 3 else mp - 9.

Definition civil_from_days (z : Z) : Z * Z * Z :=
  let z := z + 719468 in
  let era := z / 146097 in
  let doe := z mod 146097 in
  let yoe := yoe_of_doe doe in
  let doy := doy_of_doe doe in
  let mp := mp_of_doy doy in
  let d := doy - (153 * mp + 2) / 5 + 1 in
  let m := month_of_mp mp in
  (yoe + era * 400 + (if m <=? 2 then 1 else 0), m, d).

(** Day number of year [y], month [m] (1..12), day-of-month [d]; linear in
    [d], so it is also ECMA-262's [MakeDay] for a day outside the month. *)
Definition days_from_civil (y m d : Z) : Z :=
  let y := y - (if m <=? 2 then 1 else 0) in
  let era := y / 400 in
  let yoe := y mod 400 in
  let mp := (m + 9) mod 12 in
  let doy := (153 * mp + 2) / 5 + d - 1 in
  let doe := yoe * 365 + yoe / 4 - yoe / 100 + doy in
  era * 146097 + doe - 719468.

(** ** What the platform supplies *)

Record Platform : Type := {
  (** tz database: UTC offset (ms) of a named zone at a UTC instant *)
  zoneOffset : jsstring -> Z -> Z;
  (** host zone of the process: ECMA-262 LocalTime(t) and UTC(t) *)
  LocalTime : Z -> Z;
  UTC : Z -> Z;
  (** [new Date(string)]: [None] is the Invalid Date *)
  Date_parse : jsstring -> option Z;
  (** [Intl.DateTimeFormat("en-US", {timeZone, dateStyle:"medium",
      timeStyle:"short"}).format] on a valid date *)
  formatMediumShort : jsstring -> Z -> jsstring
}.

Abbreviation JSDate := (option Z).

Inductive Error : Type :=
| AuthError        (* jwtClient.authorize() rejected *)
| FetchError       (* calendar.events.list rejected *)
| RangeError       (* Intl formatting of an Invalid Date *)
| TypeError        (* property read on undefined *)
| SlackError.      (* slack.chat.postMessage rejected *)

(** ** index.js: TIMEZONE, ymdInTZ, addDays *)

Definition TIMEZONE : jsstring := lit "America/Los_Angeles".

Definition digit (n : Z) : N := Z.to_N (48 + n).

(** a "2-digit" part *)
Definition twoDigit (n : Z) : jsstring := [digit (n / 10); digit (n mod 10)].

(** a "numeric" year part, for a year of the Common Era ([1 <= y]) *)
Definition numeric (y : Z) : jsstring :=
  lit (NilZero.string_of_int (Z.to_int y)).

(** The calendar day on which instant [t] falls in zone [timeZone]. *)
Definition dayInTZ (P : Platform) (timeZone : jsstring) (t : Z) : Z :=
  Day (t + zoneOffset P timeZone t).

Definition formatYMD (day : Z) : jsstring :=
  let '(y, m, d) := civil_from_days day in
  numeric y ++ lit "-" ++ twoDigit m ++ lit "-" ++ twoDigit d.

(** [ymdInTZ(date, timeZone = TIMEZONE)]: formatToParts throws a RangeError
    on an Invalid Date. *)
Definition ymdInTZ (P : Platform) (date : JSDate) (timeZone : jsstring)
  : Error + jsstring :=
  match date with
  | None => inl RangeError
  | Some t => inr (formatYMD (dayInTZ P timeZone t))
  end.

(** [Date.prototype.getDate]: day of the month in the host zone. *)
Definition getDate (P : Platform) (t : Z) : Z :=
  let '(_, _, d) := civil_from_days (Day (LocalTime P t)) in d.

(** [Date.prototype.setDate(dt)]: replaces the day of the month of the
    host-zone local time, keeps the time within the day, converts back.
    The final [TimeClip] is the identity on the time values a [Date] can
    hold and is left out. *)
Definition setDate (P : Platform) (t : Z) (dt : Z) : Z :=
  let lt := LocalTime P t in
  let '(y, m, _) := civil_from_days (Day lt) in
  UTC P (MakeDate (days_from_civil y m dt) (TimeWithinDay lt)).

Definition addDays (P : Platform) (date : JSDate) (days : Z) : JSDate :=
  match date with
  | None => None
  | Some result => Some (setDate P result (getDate P result + days))
  end.

(** ** A concrete platform: host in UTC, Pacific rules of 2024 *)

Definition hour : Z := 3600000.

Definition utcInstant (y m d h mi : Z) : Z :=
  days_from_civil y m d * msPerDay + h * hour + mi * 60000.

(** America/Los_Angeles around 2024: PDT (UTC-7) from 2024-03-10T10:00Z
    until 2024-11-03T09:00Z, PST (UTC-8) otherwise. *)
Definition pacific2024 (t : Z) : Z :=
  if (utcInstant 2024 3 10 10 0 <=? t) && (t <? utcInstant 2024 11 3 9 0)
  then -7 * hour else -8 * hour.

Definition hostUTC : Platform := {|
  zoneOffset := fun _ => pacific2024;
  LocalTime := fun t => t;
  UTC := fun t => t;
  Date_parse := fun _ => None;
  formatMediumShort := fun _ _ => []
|}.

(** The same zone rules with the host itself on Pacific time.  A local
    time that is skipped or repeated at a transition is read with the offset
    in force before the transition, as ECMA-262 prescribes. *)
Definition hostPacific : Platform := {|
  zoneOffset := fun _ => pacific2024;
  LocalTime := fun t => t + pacific2024 t;
  UTC := fun l =>
    if (utcInstant 2024 3 10 3 0 <=? l) && (l <? utcInstant 2024 11 3 2 0)
    then l + 7 * hour else l + 8 * hour;
  Date_parse := fun _ => None;
  formatMediumShort := fun _ _ => []
|}.

(** ** Calendar events as the Calendar API returns them *)

Module Start.
Record t : Type := {
  date : option jsstring;       (* all-day: "YYYY-MM-DD" *)
  dateTime : option jsstring    (* timed: RFC 3339 instant *)
}.
End Start.

Module Event.
Record t : Type := {
  id : option jsstring;
  start : option Start.t;
  summary : option jsstring;
  description : option jsstring;
  htmlLink : option jsstring
}.
End Event.

(** [a || b] on optional strings. *)
Definition orElse (a b : option jsstring) : option jsstring :=
  if truthy a then a else b.

(** ** The process state and what it does to the outside *)

(** One call of [slack.chat.postMessage]; [req_event] and [req_label] record
    on whose behalf [sendSlackReminder] made it. *)
Record Request : Type := {
  req_event : Event.t;
  req_label : jsstring;
  req_text : jsstring;
  req_delivered : bool
}.

Record World : Type := {
  googleAuthed : bool;
  remindedWeek : gset jsstring;
  remindedDay : gset jsstring;
  (** every postMessage call since process start, oldest first *)
  outbox : list Request
}.

(** The module-level initial state. *)
Definition processStart : World := {|
  googleAuthed := false;
  remindedWeek := ∅;
  remindedDay := ∅;
  outbox := []
|}.

(** What one run of [checkCalendarAndNotify] meets outside the process. *)
Record Cycle : Type := {
  (** does [jwtClient.authorize()] resolve *)
  authorizes : bool;
  (** the time value of [new Date()] inside [getUpcomingEvents] *)
  fetchClock : Z;
  (** [calendar.events.list] for the window [timeMin], [timeMax]: [None]
      rejects, [Some items] is [res.data.items], itself possibly undefined *)
  listing : Z -> Z -> option (option (list Event.t));
  (** the time value of [new Date()] taken after the fetch *)
  clock : Z
}.

(** ** Async functions: state plus exceptions *)

Definition M (A : Type) : Type := World -> (Error + A) * World.

#[global] Instance M_ret : MRet M := fun A a w => (inr a, w).

#[global] Instance M_bind : MBind M := fun A B k m w =>
  match m w with
  | (inl e, w') => (inl e, w')
  | (inr a, w') => k a w'
  end.

Definition throw {A : Type} (e : Error) : M A := fun w => (inl e, w).

Definition liftE {A : Type} (r : Error + A) : M A := fun w => (r, w).

Definition getWorld : M World := fun w => (inr w, w).

Definition tryCatch {A : Type} (body : M A) (handler : Error -> M A) : M A :=
  fun w =>
    match body w with
    | (inl e, w') => handler e w'
    | (inr a, w') => (inr a, w')
    end.

(** [for (const x of xs) body]; [continue] is the body returning early. *)
Fixpoint forOf {A : Type} (xs : list A) (body : A -> M unit) : M unit :=
  match xs with
  | [] => mret tt
  | x :: rest => body x ;; forOf rest body
  end.

(** ** index.js: cleanDescription *)

Definition LT : N := 60.   (* "<" *)
Definition GT : N := 62.   (* ">" *)

(** [s.replace(/<[^>]*>/g, "")].  The scan goes left to right.  At a "<"
    the pattern matches exactly when some ">" follows, and the match then
    ends at the first one ([[^>]*] cannot step over it); otherwise the
    "<" is kept.  [closeTag r] is the replacement of what follows the first
    ">" of [r], if [r] has one. *)
Fixpoint stripTags (s : jsstring) : jsstring :=
  match s with
  | [] => []
  | c :: r =>
      if N.eqb c LT then
        match closeTag r with
        | Some out => out
        | None => c :: stripTags r
        end
      else c :: stripTags r
  end
with closeTag (s : jsstring) : option jsstring :=
  match s with
  | [] => None
  | c :: r => if N.eqb c GT then Some (stripTags r) else closeTag r
  end.

(** ECMA-262 WhiteSpace and LineTerminator code points, which [trim] strips. *)
Definition isWhiteSpace (c : N) : bool :=
  match c with
  | 0x09 | 0x0A | 0x0B | 0x0C | 0x0D | 0x20 | 0xA0 | 0x1680
  | 0x2000 | 0x2001 | 0x2002 | 0x2003 | 0x2004 | 0x2005 | 0x2006
  | 0x2007 | 0x2008 | 0x2009 | 0x200A
  | 0x2028 | 0x2029 | 0x202F | 0x205F | 0x3000 | 0xFEFF => true
  | _ => false
  end%N.

Fixpoint trimStart (s : jsstring) : jsstring :=
  match s with
  | [] => []
  | c :: r => if isWhiteSpace c then trimStart r else s
  end.

Definition trimEnd (s : jsstring) : jsstring := rev (trimStart (rev s)).

Definition trim (s : jsstring) : jsstring := trimEnd (trimStart s).

(** [null] is [None]. *)
Definition cleanDescription (desc : option jsstring) : option jsstring :=
  if negb (truthy desc) then None
  else
    match desc with
    | None => None
    | Some d =>
        let text := trim (stripTags d) in
        if nonEmpty text then Some text else None
    end.

(** ** index.js: getUpcomingEvents, sendSlackReminder, checkCalendarAndNotify *)

Definition NL : jsstring := [10%N].
Definition ALARM_CLOCK : jsstring := [0x23F0%N].
Definition CALENDAR : jsstring := [0xD83D%N; 0xDCC5%N].
Definition MEMO : jsstring := [0xD83D%N; 0xDCDD%N].
Definition LINK : jsstring := [0xD83D%N; 0xDD17%N].

(** [value || fallback] with a string literal as fallback. *)
Definition orDefault (value : option jsstring) (fallback : jsstring) : jsstring :=
  match value with
  | Some s => if nonEmpty s then s else fallback
  | None => fallback
  end.

(** The date of an all-day start: [Some d] exactly when
    [start.date && !start.dateTime] holds, with [d = start.date]. *)
Definition allDayDate (start : Start.t) : option jsstring :=
  match Start.date start with
  | Some d => if nonEmpty d && negb (truthy (Start.dateTime start))
              then Some d else None
  | None => None
  end.

(** Lines 144-152 of [sendSlackReminder]: the message text. *)
Definition reminderText (event : Event.t) (whenLabel prettyStart : jsstring)
  : jsstring :=
  let description := cleanDescription (Event.description event) in
  let text := ALARM_CLOCK ++ lit " *Upcoming event in " ++ whenLabel
              ++ lit "*" ++ NL in
  let text := text ++ lit "*"
              ++ orDefault (Event.summary event) (lit "Untitled event")
              ++ lit "*" ++ NL in
  let text := text ++ CALENDAR ++ lit " " ++ prettyStart ++ NL in
  let text := match description with
              | Some d => text ++ NL ++ MEMO ++ lit " " ++ d ++ NL
              | None => text
              end in
  let text := match Event.htmlLink event with
              | Some l =>
                  if nonEmpty l
                  then text ++ LINK ++ lit " <" ++ l
                       ++ lit "|Open in Google Calendar>"
                  else text
              | None => text
              end in
  text.

Definition setGoogleAuthed (b : bool) : M unit := fun w =>
  (inr tt, {| googleAuthed := b; remindedWeek := remindedWeek w;
              remindedDay := remindedDay w; outbox := outbox w |}).

(** [remindedDay.add(id)], [remindedWeek.add(id)] *)
Definition remindedDay_add (i : jsstring) : M unit := fun w =>
  (inr tt, {| googleAuthed := googleAuthed w; remindedWeek := remindedWeek w;
              remindedDay := {[ i ]} ∪ remindedDay w; outbox := outbox w |}).

Definition remindedWeek_add (i : jsstring) : M unit := fun w =>
  (inr tt, {| googleAuthed := googleAuthed w;
              remindedWeek := {[ i ]} ∪ remindedWeek w;
              remindedDay := remindedDay w; outbox := outbox w |}).

Section Bot.

Variable P : Platform.

(** Whether the k-th call of [slack.chat.postMessage] made by the process
    (counting from 0) resolves. *)
Variable slack : nat -> bool.

Definition newDate (value : option jsstring) : JSDate :=
  match value with
  | Some s => Date_parse P s
  | None => None            (* new Date(undefined) *)
  end.

(** [await slack.chat.postMessage({channel, text, mrkdwn})] *)
Definition postMessage (event : Event.t) (whenLabel text : jsstring) : M unit :=
  fun w =>
    let delivered := slack (length (outbox w)) in
    let request := {| req_event := event; req_label := whenLabel;
                      req_text := text; req_delivered := delivered |} in
    (if delivered then inr tt else inl SlackError,
     {| googleAuthed := googleAuthed w; remindedWeek := remindedWeek w;
        remindedDay := remindedDay w; outbox := outbox w ++ [request] |}).

(** Lines 129-143 of [sendSlackReminder]. *)
Definition prettyStart (event : Event.t) : Error + jsstring :=
  match Event.start event with
  | Some start =>
      match allDayDate start with
      | Some d => inr d
      | None =>
          match newDate (Start.dateTime start) with
          | Some t => inr (formatMediumShort P TIMEZONE t)
          | None => inl RangeError
          end
      end
  | None => inl TypeError     (* event.start.dateTime on undefined *)
  end.

Definition sendSlackReminder (event : Event.t) (whenLabel : jsstring) : M unit :=
  pretty ← liftE (prettyStart event);
  postMessage event whenLabel (reminderText event whenLabel pretty).

Definition getUpcomingEvents (c : Cycle) (minutesAhead : Z)
  : M (list Event.t) :=
  w ← getWorld;
  (if negb (googleAuthed w)
   then (if authorizes c then setGoogleAuthed true else throw AuthError)
   else mret tt) ;;
  let now := fetchClock c in
  let timeMin := now in
  let timeMax := now + minutesAhead * 60 * 1000 in
  match listing c timeMin timeMax with
  | Some items => mret (default [] items)       (* res.data.items || [] *)
  | None => throw FetchError
  end.

(** Lines 198-206: the calendar date the event is compared by. *)
Definition eventYMD (start : Start.t) : Error + jsstring :=
  match allDayDate start with
  | Some d => inr d
  | None => ymdInTZ P (newDate (Start.dateTime start)) TIMEZONE
  end.

(** Lines 193-219: the body of [for (const event of events)]. *)
Definition eventBody (tomorrowYMD weekYMD : jsstring) (event : Event.t)
  : M unit :=
  match Event.id event, Event.start event with
  | Some i, Some start =>
      if negb (nonEmpty i) then mret tt
      else if negb (truthy (orElse (Start.dateTime start) (Start.date start)))
      then mret tt
      else
        ymd ← liftE (eventYMD start);
        (w ← getWorld;
         if bool_decide (ymd = tomorrowYMD) && negb (bool_decide (i ∈ remindedDay w))
         then sendSlackReminder event (lit "1 day") ;; remindedDay_add i
         else mret tt) ;;
        (w ← getWorld;
         if bool_decide (ymd = weekYMD) && negb (bool_decide (i ∈ remindedWeek w))
         then sendSlackReminder event (lit "1 week") ;; remindedWeek_add i
         else mret tt)
  | _, _ => mret tt
  end.

(** Lines 166-225.  The handler logs [err.response?.data || err] and
    returns: reading [response] off an [Error] object does not throw. *)
Definition checkCalendarAndNotify (c : Cycle) : M unit :=
  tryCatch
    (events ← getUpcomingEvents c (9 * 24 * 60);
     let now : JSDate := Some (clock c) in
     todayYMD ← liftE (ymdInTZ P now TIMEZONE);
     tomorrowYMD ← liftE (ymdInTZ P (addDays P now 1) TIMEZONE);
     weekYMD ← liftE (ymdInTZ P (addDays P now 7) TIMEZONE);
     forOf events (eventBody tomorrowYMD weekYMD))
    (fun err => mret tt).

(** Runs of [checkCalendarAndNotify] one after the other, each finished
    before the next starts.  A rejected run would stop the chain with its
    error. *)
Fixpoint runCycles (cs : list Cycle) : M unit :=
  match cs with
  | [] => mret tt
  | c :: rest => checkCalendarAndNotify c ;; runCycles rest
  end.

End Bot.

(** ** Vocabulary of the specification *)

Inductive Threshold : Type := OneDay | OneWeek.

(** The label a threshold is announced with, and the set that records it. *)
Definition label (th : Threshold) : jsstring :=
  match th with OneDay => lit "1 day" | OneWeek => lit "1 week" end.

Definition reminded (th : Threshold) (w : World) : gset jsstring :=
  match th with OneDay => remindedDay w | OneWeek => remindedWeek w end.

(** The request was made for event id [i] and threshold [th]. *)
Definition pairOf (r : Request) (i : jsstring) (th : Threshold) : Prop :=
  Event.id (req_event r) = Some i /\ req_label r = label th.

Definition isFor (i : jsstring) (th : Threshold) (r : Request) : bool :=
  bool_decide (Event.id (req_event r) = Some i)
  && bool_decide (req_label r = label th).

Definition requestsFor (i : jsstring) (th : Threshold) (reqs : list Request)
  : list Request :=
  List.filter (isFor i th) reqs.

Definition deliveredFor (i : jsstring) (th : Threshold) (reqs : list Request)
  : list Request :=
  List.filter (fun r => isFor i th r && req_delivered r) reqs.

(** Some substring of [s] matches [<[^>]*>]. *)
Definition hasTag (s : jsstring) : Prop :=
  exists pre body suf,
    s = pre ++ [LT] ++ body ++ [GT] ++ suf /\ GT ∉ body.

(** The global replacement, said without an algorithm: the leftmost match
    is removed, the scan resumes after it; a "<" with no ">" after it
    stays. *)
Inductive Replaced : jsstring -> jsstring -> Prop :=
| Replaced_nil : Replaced [] []
| Replaced_keep c r out :
    c <> LT -> Replaced r out -> Replaced (c :: r) (c :: out)
| Replaced_open r out :
    GT ∉ r -> Replaced r out -> Replaced (LT :: r) (LT :: out)
| Replaced_tag body r out :
    GT ∉ body -> Replaced r out -> Replaced (LT :: body ++ GT :: r) out.

(** The event is one the loop skips as malformed. *)
Definition malformed (e : Event.t) : Prop :=
  truthy (Event.id e) = false
  \/ Event.start e = None
  \/ exists st, Event.start e = Some st
                /\ truthy (Start.date st) = false
                /\ truthy (Start.dateTime st) = false.

(** The message text as the specification describes it, part by part. *)
Definition headerLine (whenLabel : jsstring) : jsstring :=
  ALARM_CLOCK ++ lit " *Upcoming event in " ++ whenLabel ++ lit "*" ++ NL.

Definition titleLine (summary : option jsstring) : jsstring :=
  lit "*" ++ (if truthy summary then default [] summary
              else lit "Untitled event") ++ lit "*" ++ NL.

Definition dateLine (pretty : jsstring) : jsstring :=
  CALENDAR ++ lit " " ++ pretty ++ NL.

Definition descriptionParagraph (description : option jsstring) : jsstring :=
  match description with
  | Some d =>
      if nonEmpty (trim (stripTags d))
      then NL ++ MEMO ++ lit " " ++ trim (stripTags d) ++ NL
      else []
  | None => []
  end.

Definition linkLine (htmlLink : option jsstring) : jsstring :=
  if truthy htmlLink
  then LINK ++ lit " <" ++ default [] htmlLink ++ lit "|Open in Google Calendar>"
  else [].

(** The whole text: header, title, date line, then the two optional parts. *)
Definition renderedText (e : Event.t) (whenLabel pretty : jsstring)
  : jsstring :=
  headerLine whenLabel ++ titleLine (Event.summary e) ++ dateLine pretty
  ++ descriptionParagraph (Event.description e)
  ++ linkLine (Event.htmlLink e).

(** What the date line shows: the bare date of an all-day event, the
    zone-localized date and time of a timed one. *)
Definition prettyOf (P : Platform) (e : Event.t) (pretty : jsstring) : Prop :=
  exists st, Event.start e = Some st /\
    ((Start.date st = Some pretty /\ nonEmpty pretty = true
      /\ truthy (Start.dateTime st) = false)
     \/ (exists s t, Start.dateTime st = Some s /\ Date_parse P s = Some t
                     /\ pretty = formatMediumShort P TIMEZONE t)).

Definition Shaped (P : Platform) (r : Request) : Prop :=
  exists pretty,
    prettyOf P (req_event r) pretty /\
    req_text r =
      headerLine (req_label r)
      ++ titleLine (Event.summary (req_event r))
      ++ dateLine pretty
      ++ descriptionParagraph (Event.description (req_event r))
      ++ linkLine (Event.htmlLink (req_event r)).

(** The UTC offsets the platform uses are at most a day: those of the
    configured zone, and the one the host applies to turn a local time back
    into an instant. *)
Definition offsetsWithinADay (P : Platform) : Prop :=
  (forall t, Z.abs (zoneOffset P TIMEZONE t) <= msPerDay)
  /\ (forall l, Z.abs (UTC P l - l) <= msPerDay).

(** Exhaustive test of [f] on [n] consecutive integers from [z]. *)
Fixpoint allFrom (n : nat) (z : Z) (f : Z -> bool) : bool :=
  match n with
  | O => true
  | S k => if f z then allFrom k (z + 1) f else false
  end.

(** The two range facts behind the date conversion, as tests on one day of
    era and on one day of year. *)
Definition doe_ok (doe : Z) : bool :=
  let yoe := yoe_of_doe doe in
  let doy := doe - (365 * yoe + yoe / 4 - yoe / 100) in
  (0 <=? yoe) && (yoe <? 400) && (0 <=? doy) && (doy <=? 365).

Definition doy_ok (doy : Z) : bool :=
  let mp := mp_of_doy doy in
  let d := doy - (153 * mp + 2) / 5 + 1 in
  (0 <=? mp) && (mp <=? 11) && (1 <=? d) && (d <=? 31).

(** No "<" of [s] has a ">" anywhere after it. *)
Definition noOpenBeforeClose (s : jsstring) : Prop :=
  forall pre suf, s = pre ++ LT :: suf -> GT ∉ suf.

(** The two guarded blocks of the loop body (lines 210-213 and 216-219) are
    one block, instantiated at a threshold. *)
Definition addReminded (th : Threshold) (i : jsstring) : M unit :=
  match th with
  | OneDay => remindedDay_add i
  | OneWeek => remindedWeek_add i
  end.

Definition remindBlock (P : Platform) (slack : nat -> bool) (th : Threshold)
    (target ymd : jsstring) (event : Event.t) (i : jsstring) : M unit :=
  w ← getWorld;
  if bool_decide (ymd = target) && negb (bool_decide (i ∈ reminded th w))
  then sendSlackReminder P slack event (label th) ;; addReminded th i
  else mret tt.

Definition mkRequest (e : Event.t) (whenLabel pretty : jsstring) (d : bool)
  : Request :=
  {| req_event := e; req_label := whenLabel;
     req_text := reminderText e whenLabel pretty; req_delivered := d |}.

Definition post (r : Request) (w : World) : World :=
  {| googleAuthed := googleAuthed w; remindedWeek := remindedWeek w;
     remindedDay := remindedDay w; outbox := outbox w ++ [r] |}.

(** [new] is what a stretch of execution from [w] to [w'] posted. *)
Definition Grow (P : Platform) (slack : nat -> bool)
    (w : World) (new : list Request) (w' : World) : Prop :=
  outbox w' = outbox w ++ new
  /\ (forall th, reminded th w ⊆ reminded th w')
  /\ (forall i th,
        (length (deliveredFor i th new)
         + Nat.b2n (bool_decide (i ∈ reminded th w)))%nat
        = Nat.b2n (bool_decide (i ∈ reminded th w')))
  /\ (forall r, r ∈ new ->
        exists i th k,
          pairOf r i th /\ nonEmpty i = true /\ (i ∉ reminded th w)
          /\ Shaped P r /\ req_delivered r = slack k).

(** The same within one run of the loop, where a failed delivery ends the
    run with the failing pair unrecorded. *)
Definition Inv (P : Platform) (slack : nat -> bool)
    (w : World) (res : Error + unit) (w' : World) : Prop :=
  exists new,
    Grow P slack w new w'
    /\ (forall r, r ∈ new -> req_delivered r = false ->
          res = inl SlackError
          /\ forall i th, pairOf r i th -> i ∉ reminded th w')
    /\ (res = inl SlackError ->
          exists r, r ∈ new /\ req_delivered r = false).

#[global] Instance Threshold_eq_dec : EqDecision Threshold.
Proof. solve_decision. Defined.

(** The window date [days] days ahead of [now], as the cycle computes it:
    [ymdInTZ(addDays(now, days))]. *)
Definition windowYMD (P : Platform) (now days : Z) : jsstring :=
  match ymdInTZ P (addDays P (Some now) days) TIMEZONE with
  | inr s => s
  | inl _ => []
  end.

(** Concrete inputs used below. *)
Definition evA : Event.t := {|
  Event.id := Some (lit "a");
  Event.start := Some {| Start.date := Some (lit "2024-06-10");
                         Start.dateTime := None |};
  Event.summary := None;
  Event.description := None;
  Event.htmlLink := None
|}.

(** 2024-06-09 12:00 in Los Angeles; the calendar returns [evA]. *)
Definition june9 : Cycle := {|
  authorizes := true;
  fetchClock := utcInstant 2024 6 9 19 0;
  listing := fun _ _ => Some (Some [evA]);
  clock := utcInstant 2024 6 9 19 0
|}.

(** An event without [start]. *)
Definition evNoStart : Event.t := {|
  Event.id := Some (lit "b");
  Event.start := None;
  Event.summary := None;
  Event.description := None;
  Event.htmlLink := None
|}.

(** The calendar request is rejected. *)
Definition fetchFails : Cycle := {|
  authorizes := true;
  fetchClock := utcInstant 2024 6 9 19 0;
  listing := fun _ _ => None;
  clock := utcInstant 2024 6 9 19 0
|}.

(** [evA] first, then an event without start. *)
Definition june9Two : Cycle := {|
  authorizes := true;
  fetchClock := utcInstant 2024 6 9 19 0;
  listing := fun _ _ => Some (Some [evA; evNoStart]);
  clock := utcInstant 2024 6 9 19 0
|}.

(** Slack rejects the first post of the process and accepts the others. *)
Definition firstPostFails (k : nat) : bool := negb (Nat.eqb k 0).

Definition alwaysDelivers (k : nat) : bool := true.

(** ** Further vocabulary *)

(** Every request of the list but the last one was delivered. *)
Fixpoint onlyLastMayFail (l : list Request) : bool :=
  match l with
  | [] => true
  | r :: rest =>
      match rest with
      | [] => true
      | _ :: _ => req_delivered r && onlyLastMayFail rest
      end
  end.

(** What a stretch of execution posted: only the last post may have
    failed, and a failed post shows as the Slack error. *)
Definition NoPostAfterFailure (w : World) (res : Error + unit) (w' : World)
  : Prop :=
  exists new,
    outbox w' = outbox w ++ new
    /\ onlyLastMayFail new = true
    /\ (res <> inl SlackError ->
        Forall (fun r => req_delivered r = true) new).

(** A timed event whose [dateTime] the platform cannot parse. *)
Definition unparseableTimed (P : Platform) (e : Event.t) : Prop :=
  exists i st s,
    Event.id e = Some i /\ nonEmpty i = true
    /\ Event.start e = Some st
    /\ Start.dateTime st = Some s /\ nonEmpty s = true
    /\ Date_parse P s = None.

(** An event with an id and a [dateTime] that is not a date. *)
Definition evBadTime : Event.t := {|
  Event.id := Some (lit "c");
  Event.start := Some {| Start.date := None;
                         Start.dateTime := Some (lit "soon") |};
  Event.summary := None;
  Event.description := None;
  Event.htmlLink := None
|}.

(** The calendar returns [evBadTime] before [evA]. *)
Definition june9BadFirst : Cycle := {|
  authorizes := true;
  fetchClock := utcInstant 2024 6 9 19 0;
  listing := fun _ _ => Some (Some [evBadTime; evA]);
  clock := utcInstant 2024 6 9 19 0
|}.

(** The time values a [Date] can hold: ECMA-262 [TimeClip] turns anything
    further than 8.64e15 ms from the epoch into the Invalid Date. *)
Definition maxTime : Z := 8640000000000000.

Definition inDateRange (t : Z) : bool := Z.abs t <=? maxTime.

(** The local times of such dates, the zone being less than a day from
    UTC: numbers on which the arithmetic of [setDate] is exact. *)
Definition inLocalRange (l : Z) : bool := Z.abs l <=? maxTime + msPerDay.

(** The day lies in a year of the Common Era (year 1 or later), where the
    year that [Intl.DateTimeFormat] prints is the year itself. *)
Definition commonEra (day : Z) : bool :=
  let '(y, _, _) := civil_from_days day in 1 <=? y.

(** [g] holds at most one request per threshold, each about [e], the one
    labelled "1 day" first. *)
Definition requestsAbout (e : Event.t) (g : list Request) : Prop :=
  exists gd gw,
    g = gd ++ gw
    /\ (length gd <= 1)%nat /\ (length gw <= 1)%nat
    /\ (forall r, r ∈ gd -> req_event r = e /\ req_label r = label OneDay)
    /\ (forall r, r ∈ gw -> req_event r = e /\ req_label r = label OneWeek).

(** ** index.js: main *)

Inductive ProcessEnd : Type :=
| Exited (code : Z)       (* process.exit(code) *)
| KeepsRunning.           (* the cron schedule keeps the process alive *)

(** What a started process meets. *)
Record Launch : Type := {
  (** [process.env.RUN_ONCE] *)
  RUN_ONCE : option jsstring;
  (** does [app.listen(PORT)] of [startServer] accept the configured port
      (it throws on one that is not a port number) *)
  listenAccepted : bool;
  (** does [cron.schedule] accept the configured expression (it throws on
      one it cannot parse) *)
  scheduleAccepted : bool;
  (** what the awaited run of the run-once mode meets *)
  firstRun : Cycle
}.

(** [main().catch(...)], up to the point where the promise of [main()]
    settles.  In run-once mode that is after the awaited run; otherwise it
    is once the server is started and the schedule is registered.  The runs
    that cron ticks start come after that point and are no part of [main];
    nothing awaits them, so one may start before the previous one has
    finished ([Task] below).  The log lines are left out. *)
Definition main (P : Platform) (slack : nat -> bool) (L : Launch)
  : World -> ProcessEnd * World :=
  fun w =>
    if bool_decide (RUN_ONCE L = Some (lit "true")) then
      match checkCalendarAndNotify P slack (firstRun L) w with
      | (inr _, w') => (Exited 0, w')
      | (inl _, w') => (Exited 1, w')       (* the catch of main() *)
      end
    else if listenAccepted L then
      if scheduleAccepted L then (KeepsRunning, w)
      else (Exited 1, w)                    (* the catch of main() *)
    else (Exited 1, w).                     (* the catch of main() *)

(** ** Runs that overlap

    The callback that [cron.schedule] is given calls
    [checkCalendarAndNotify()] without awaiting it, so a tick can start a run
    while an earlier run is still waiting for the calendar or for Slack.  A
    run gives way at its [await]s and nowhere else.  A [Task] is a run
    standing at one of them; [resume] takes it from there to its next one.
    Between two resumptions of a task other tasks may be resumed, on the
    same [World]. *)

Inductive Task : Type :=
| Idle (c : Cycle)             (* the callback has not run yet *)
| AwaitAuthorize (c : Cycle)   (* at [await jwtClient.authorize()] *)
| AwaitList (c : Cycle)        (* at [await calendar.events.list(...)] *)
| AwaitPost (c : Cycle) (e : Event.t) (i ymd : jsstring) (th : Threshold)
    (delivered : bool) (rest : list Event.t)
                               (* at [await slack.chat.postMessage(...)] in
                                  the block of [th] for [e], the events
                                  [rest] still to come *)
| Finished.

(** What entering one of the two guarded blocks of the loop body does up to
    its await. *)
Inductive Block : Type :=
| Skip                                     (* the guard is false *)
| Threw (err : Error)                      (* thrown before any post *)
| Posted (delivered : bool) (w' : World).  (* the request is out *)

Section Tasks.

Variable P : Platform.
Variable slack : nat -> bool.

Definition startBlock (th : Threshold) (target ymd : jsstring) (e : Event.t)
    (i : jsstring) (w : World) : Block :=
  if bool_decide (ymd = target) && negb (bool_decide (i ∈ reminded th w))
  then
    match prettyStart P e with
    | inl err => Threw err
    | inr pretty =>
        let d := slack (length (outbox w)) in
        Posted d (post (mkRequest e (label th) pretty d) w)
    end
  else Skip.

(** The "1 week" block of [e], then whatever [continue] does. *)
Definition weekBlock (c : Cycle) (e : Event.t) (i ymd : jsstring)
    (rest : list Event.t) (continue : World -> Task * World) (w : World)
  : Task * World :=
  match startBlock OneWeek (windowYMD P (clock c) 7) ymd e i w with
  | Skip => continue w
  | Threw _ => (Finished, w)                 (* caught: the run is over *)
  | Posted d w' => (AwaitPost c e i ymd OneWeek d rest, w')
  end.

(** The loop from the head of [events] up to its next await. *)
Fixpoint loopFrom (c : Cycle) (events : list Event.t) (w : World)
  : Task * World :=
  match events with
  | [] => (Finished, w)
  | e :: rest =>
      match Event.id e, Event.start e with
      | Some i, Some start =>
          if negb (nonEmpty i) then loopFrom c rest w
          else if negb (truthy (orElse (Start.dateTime start)
                                       (Start.date start)))
          then loopFrom c rest w
          else
            match eventYMD P start with
            | inl _ => (Finished, w)         (* caught: the run is over *)
            | inr ymd =>
                match startBlock OneDay (windowYMD P (clock c) 1) ymd e i w
                with
                | Skip => weekBlock c e i ymd rest (loopFrom c rest) w
                | Threw _ => (Finished, w)
                | Posted d w' => (AwaitPost c e i ymd OneDay d rest, w')
                end
            end
      | _, _ => loopFrom c rest w
      end
  end.

Definition resume (t : Task) (w : World) : Task * World :=
  match t with
  | Idle c =>
      if negb (googleAuthed w) then (AwaitAuthorize c, w)
      else (AwaitList c, w)
  | AwaitAuthorize c =>
      if authorizes c then (AwaitList c, (setGoogleAuthed true w).2)
      else (Finished, w)                     (* caught: the run is over *)
  | AwaitList c =>
      match listing c (fetchClock c)
              (fetchClock c + (9 * 24 * 60) * 60 * 1000) with
      | Some items => loopFrom c (default [] items) w
      | None => (Finished, w)
      end
  | AwaitPost c e i ymd th delivered rest =>
      if delivered then
        let w1 := (addReminded th i w).2 in
        match th with
        | OneDay => weekBlock c e i ymd rest (loopFrom c rest) w1
        | OneWeek => loopFrom c rest w1
        end
      else (Finished, w)                     (* caught: the run is over *)
  | Finished => (Finished, w)
  end.

(** [n] resumptions of one task with nothing in between. *)
Fixpoint runTask (n : nat) (t : Task) (w : World) : Task * World :=
  match n with
  | O => (t, w)
  | S n => let '(t', w') := resume t w in runTask n t' w'
  end.

(** The process resumes the task at position [k] of its pool. *)
Definition stepAt (k : nat) (pool : list Task) (w : World)
  : list Task * World :=
  match pool !! k with
  | Some t => let '(t', w') := resume t w in (<[k := t']> pool, w')
  | None => (pool, w)
  end.

Fixpoint runSchedule (sched : list nat) (pool : list Task) (w : World)
  : list Task * World :=
  match sched with
  | [] => (pool, w)
  | k :: later => let '(pool', w') := stepAt k pool w in
                  runSchedule later pool' w'
  end.

(** Runs that do not overlap: each has finished before the next starts. *)
Inductive Serial : list Cycle -> World -> World -> Prop :=
| Serial_nil w : Serial [] w w
| Serial_cons c cs n w w1 w2 :
    runTask n (Idle c) w = (Finished, w1) -> Serial cs w1 w2 ->
    Serial (c :: cs) w w2.

End Tasks.

(** ** The earlier revision of the loop (src/index.js, lines 159-163) *)

Module IndexJs.
(** [ymdInTZ(new Date(event.start.dateTime || event.start.date))] *)
Definition eventYMD (P : Platform) (start : Start.t) : Error + jsstring :=
  ymdInTZ P (newDate P (orElse (Start.dateTime start) (Start.date start)))
    TIMEZONE.
End IndexJs.

(** ** More concrete inputs *)

(** Host in UTC, zone fixed at UTC-8. *)
Definition hostFixed : Platform := {|
  zoneOffset := fun _ _ => -8 * hour;
  LocalTime := fun t => t;
  UTC := fun l => l;
  Date_parse := fun _ => None;
  formatMediumShort := fun _ _ => []
|}.

(** [hostUTC] with a [Date.parse] that knows two strings: a date-only form
    is UTC midnight, a form with offset is the instant it names. *)
Definition hostUTCParsing : Platform := {|
  zoneOffset := fun _ => pacific2024;
  LocalTime := fun t => t;
  UTC := fun t => t;
  Date_parse := fun s =>
    if bool_decide (s = lit "2024-06-10") then Some (utcInstant 2024 6 10 0 0)
    else if bool_decide (s = lit "2024-06-10T09:00:00-07:00")
    then Some (utcInstant 2024 6 10 16 0)
    else None;
  formatMediumShort := fun _ _ => []
|}.

(** [hostUTCParsing] with a formatter that knows the one instant. *)
Definition hostUTCFormatting : Platform := {|
  zoneOffset := fun _ => pacific2024;
  LocalTime := fun t => t;
  UTC := fun t => t;
  Date_parse := Date_parse hostUTCParsing;
  formatMediumShort := fun _ t =>
    if t =? utcInstant 2024 6 10 16 0 then lit "Jun 10, 2024, 9:00 AM"
    else []
|}.

(** A timed event with every display field, markup in its description. *)
Definition evStandup : Event.t := {|
  Event.id := Some (lit "x");
  Event.start := Some {| Start.date := None;
                         Start.dateTime :=
                           Some (lit "2024-06-10T09:00:00-07:00") |};
  Event.summary := Some (lit "Standup");
  Event.description := Some (lit " <p>Bring <b>notes</b></p> ");
  Event.htmlLink := Some (lit "https://cal/x")
|}.

(** A process that has authorized already and has posted nothing yet. *)
Definition processAuthed : World := {|
  googleAuthed := true;
  remindedWeek := ∅;
  remindedDay := ∅;
  outbox := []
|}.

Definition stTimed : Start.t :=
  {| Start.date := None;
     Start.dateTime := Some (lit "2024-06-10T09:00:00-07:00") |}.

Definition stAllDay : Start.t :=
  {| Start.date := Some (lit "2024-06-10"); Start.dateTime := None |}.

Definition runOnce : Launch := {|
  RUN_ONCE := Some (lit "true");
  listenAccepted := true;
  scheduleAccepted := true;
  firstRun := june9
|}.

(** The string neither starts nor ends with white space. *)
Definition startsClean (s : jsstring) : Prop :=
  match s with [] => True | c :: _ => isWhiteSpace c = false end.

Definition edgesClean (s : jsstring) : Prop :=
  startsClean s /\ startsClean (rev s).

(** Trimming, said without an algorithm: [text] is [s] without a run of
    white space at its start and one at its end, and itself neither starts
    nor ends with white space. *)
Definition Trimmed (s text : jsstring) : Prop :=
  exists a b,
    s = a ++ text ++ b
    /\ forallb isWhiteSpace a = true /\ forallb isWhiteSpace b = true
    /\ edgesClean text.

(** ** Civil dates as the Calendar API writes them *)

Definition isLeap (y : Z) : bool :=
  ((y mod 4 =? 0) && negb (y mod 100 =? 0)) || (y mod 400 =? 0).

Definition daysInMonth (y m : Z) : Z :=
  if m =? 2 then (if isLeap y then 29 else 28)
  else if (m =? 4) || (m =? 6) || (m =? 9) || (m =? 11) then 30
  else 31.

Definition validDate (y m d : Z) : bool :=
  (1 <=? m) && (m <=? 12) && (1 <=? d) && (d <=? daysInMonth y m).

Definition fourDigit (y : Z) : jsstring :=
  [digit (y / 1000); digit (y / 100 mod 10); digit (y / 10 mod 10);
   digit (y mod 10)].

(** "YYYY-MM-DD" *)
Definition isoDate (y m d : Z) : jsstring :=
  fourDigit y ++ lit "-" ++ twoDigit m ++ lit "-" ++ twoDigit d.

(** Test of the conversion back and forth on one date. *)
Definition civil_ok (y m d : Z) : bool :=
  if validDate y m d
  then let '(y', m', d') := civil_from_days (days_from_civil y m d) in
       (y' =? y) && (m' =? m) && (d' =? d)
  else true.

Definition civil_ok_year (y : Z) : bool :=
  allFrom 12 1 (fun m => allFrom 31 1 (fun d => civil_ok y m d)).

Definition numeric_ok (y : Z) : bool :=
  bool_decide (numeric y = fourDigit y).
(** * Properties *)

(** ** Calendar arithmetic *)

Lemma allFrom_spec (f : Z -> bool) (n : nat) (z : Z) :
  allFrom n z f = true ->
  forall k, z <= k < z + Z.of_nat n -> f k = true.
Proof.
  revert z. induction n as [|n IH]; intros z H k Hk.
  - simpl in Hk. lia.
  - simpl in H. destruct (f z) eqn:Hz; [|discriminate].
    destruct (Z.eq_dec k z) as [->|Hne]; [exact Hz|].
    apply (IH (z + 1) H). lia.
Qed.

Lemma doe_ok_all : allFrom (Z.to_nat 146097) 0 doe_ok = true.
Proof. vm_compute. reflexivity. Qed.

Lemma doy_ok_all : allFrom (Z.to_nat 366) 0 doy_ok = true.
Proof. vm_compute. reflexivity. Qed.

Lemma doe_ok_spec (doe : Z) : 0 <= doe < 146097 -> doe_ok doe = true.
Proof.
  intros H. apply (allFrom_spec doe_ok _ 0 doe_ok_all).
  rewrite Z2Nat.id; lia.
Qed.

Lemma doy_ok_spec (doy : Z) : 0 <= doy <= 365 -> doy_ok doy = true.
Proof.
  intros H. apply (allFrom_spec doy_ok _ 0 doy_ok_all).
  rewrite Z2Nat.id; lia.
Qed.

(** Shape of the civil date of a day of era. *)
Lemma civil_of_doe (doe : Z) :
  0 <= doe < 146097 ->
  let yoe := yoe_of_doe doe in
  let mp := mp_of_doy (doy_of_doe doe) in
  let m := month_of_mp mp in
  let d := doy_of_doe doe - (153 * mp + 2) / 5 + 1 in
  0 <= yoe < 400 /\ 1 <= m <= 12 /\ (m + 9) mod 12 = mp /\ 1 <= d <= 31
  /\ (m <= 2 <-> 10 <= mp)
  /\ yoe * 365 + yoe / 4 - yoe / 100 + ((153 * mp + 2) / 5 + d - 1) = doe.
Proof.
  intros Hb. cbv zeta.
  pose proof (doe_ok_spec _ Hb) as Hok. unfold doe_ok in Hok.
  fold (doy_of_doe doe) in Hok.
  repeat (apply andb_prop in Hok; destruct Hok as [Hok ?]).
  assert (Hdoy : 0 <= doy_of_doe doe <= 365) by lia.
  pose proof (doy_ok_spec _ Hdoy) as Hok'. unfold doy_ok in Hok'.
  repeat (apply andb_prop in Hok'; destruct Hok' as [Hok' ?]).
  set (mp := mp_of_doy (doy_of_doe doe)) in *.
  assert (Hm : month_of_mp mp = if mp <? 10 then mp + 3 else mp - 9)
    by reflexivity.
  assert (Hy : doy_of_doe doe
               = doe - (365 * yoe_of_doe doe + yoe_of_doe doe / 4
                        - yoe_of_doe doe / 100)) by reflexivity.
  destruct (mp <? 10) eqn:Hlt; rewrite Hm;
    (repeat split; try lia);
    [replace (mp + 3 + 9) with (mp + 1 * 12) by lia
    |replace (mp - 9 + 9) with mp by lia];
    rewrite ?Z.mod_add by lia; apply Z.mod_small; lia.
Qed.

Lemma civil_from_days_range (z y m d : Z) :
  civil_from_days z = (y, m, d) -> 1 <= m <= 12 /\ 1 <= d <= 31.
Proof.
  unfold civil_from_days. intros E.
  pose proof (Z.mod_pos_bound (z + 719468) 146097 ltac:(lia)) as Hb.
  pose proof (civil_of_doe _ Hb) as Hc. cbv zeta in Hc.
  injection E as _ Hm Hd. rewrite Hm, Hd in Hc. lia.
Qed.

Lemma days_from_civil_from_days (z y m d : Z) :
  civil_from_days z = (y, m, d) -> days_from_civil y m d = z.
Proof.
  unfold civil_from_days. intros E.
  pose proof (Z.mod_pos_bound (z + 719468) 146097 ltac:(lia)) as Hb.
  pose proof (civil_of_doe _ Hb) as Hc. cbv zeta in Hc.
  set (doe := (z + 719468) mod 146097) in *.
  set (era := (z + 719468) / 146097) in *.
  set (yoe := yoe_of_doe doe) in *.
  set (mp := mp_of_doy (doy_of_doe doe)) in *.
  injection E as Hy Hm Hd. rewrite Hm, Hd in Hc. rewrite Hm in Hy.
  destruct Hc as (Hyoe & Hmr & Hmp & Hdr & _ & Hdoe).
  unfold days_from_civil.
  replace (y - (if m <=? 2 then 1 else 0)) with (yoe + era * 400) by lia.
  rewrite Z.div_add, Z.mod_add by lia.
  rewrite Z.div_small, Z.mod_small by lia.
  rewrite Hmp.
  pose proof (Z.div_mod (z + 719468) 146097 ltac:(lia)) as Hdm.
  fold doe era in Hdm. lia.
Qed.

Lemma civil_from_days_inj (a b : Z) :
  civil_from_days a = civil_from_days b -> a = b.
Proof.
  intros E.
  destruct (civil_from_days a) as [[y m] d] eqn:Ea.
  symmetry in E.
  apply days_from_civil_from_days in Ea, E. congruence.
Qed.

Lemma days_from_civil_shift (y m d k : Z) :
  days_from_civil y m (d + k) = days_from_civil y m d + k.
Proof. unfold days_from_civil. lia. Qed.

(** [setDate(getDate() + days)] moves the host-zone local time by whole
    days and keeps the time within the day. *)
Lemma addDays_shift (P : Platform) (t days : Z) :
  addDays P (Some t) days = Some (UTC P (LocalTime P t + days * msPerDay)).
Proof.
  unfold addDays, setDate, getDate.
  destruct (civil_from_days (Day (LocalTime P t))) as [[y m] d] eqn:E.
  apply days_from_civil_from_days in E.
  rewrite days_from_civil_shift, E.
  unfold MakeDate, Day, TimeWithinDay, msPerDay. do 2 f_equal.
  pose proof (Z.div_mod (LocalTime P t) 86400000 ltac:(lia)). lia.
Qed.

(** ** The date format is injective *)

Lemma lit_inj (s1 s2 : string) : lit s1 = lit s2 -> s1 = s2.
Proof.
  unfold lit. intros H.
  rewrite <- (string_of_list_ascii_of_string s1),
          <- (string_of_list_ascii_of_string s2).
  f_equal.
  revert H. generalize (list_ascii_of_string s1) (list_ascii_of_string s2).
  induction l as [|a l IH]; intros [|b l'] H; try discriminate; [reflexivity|].
  simpl in H. injection H as Hab Hl. f_equal; [|auto].
  rewrite <- (ascii_N_embedding a), <- (ascii_N_embedding b). now rewrite Hab.
Qed.

Lemma numeric_inj (y1 y2 : Z) : numeric y1 = numeric y2 -> y1 = y2.
Proof.
  unfold numeric. intros H. apply lit_inj in H.
  apply DecimalZ.to_int_inj.
  assert (Hn : forall z, Z.to_int z <> Decimal.Pos Decimal.Nil
                         /\ Z.to_int z <> Decimal.Neg Decimal.Nil).
  { intros [|p|p]; simpl; split; try discriminate;
      intros [= Hp]; now apply (DecimalPos.Unsigned.to_uint_nonnil p). }
  pose proof (NilZero.isi (Z.to_int y1) (proj1 (Hn y1)) (proj2 (Hn y1))) as H1.
  pose proof (NilZero.isi (Z.to_int y2) (proj1 (Hn y2)) (proj2 (Hn y2))) as H2.
  rewrite H in H1. congruence.
Qed.

Lemma twoDigit_inj (a b : Z) :
  0 <= a < 100 -> 0 <= b < 100 -> twoDigit a = twoDigit b -> a = b.
Proof.
  unfold twoDigit, digit. intros Ha Hb [= H1 H2].
  pose proof (Z.div_mod a 10 ltac:(lia)).
  pose proof (Z.div_mod b 10 ltac:(lia)).
  pose proof (Z.mod_pos_bound a 10 ltac:(lia)).
  pose proof (Z.mod_pos_bound b 10 ltac:(lia)).
  assert (0 <= a / 10) by (apply Z.div_pos; lia).
  assert (0 <= b / 10) by (apply Z.div_pos; lia).
  apply Z2N.inj in H1, H2; lia.
Qed.

Lemma formatYMD_inj (a b : Z) : formatYMD a = formatYMD b -> a = b.
Proof.
  unfold formatYMD. intros H.
  destruct (civil_from_days a) as [[y m] d] eqn:Ea.
  destruct (civil_from_days b) as [[y' m'] d'] eqn:Eb.
  pose proof (civil_from_days_range _ _ _ _ Ea) as [Hm Hd].
  pose proof (civil_from_days_range _ _ _ _ Eb) as [Hm' Hd'].
  apply app_inj_2 in H as [Hy H]; [|reflexivity].
  apply numeric_inj in Hy.
  injection H as H1 H2 H3 H4.
  assert (m = m') by (apply twoDigit_inj; [lia|lia|unfold twoDigit; congruence]).
  assert (d = d') by (apply twoDigit_inj; [lia|lia|unfold twoDigit; congruence]).
  apply civil_from_days_inj. congruence.
Qed.

(** Dates as the zone sees them. *)
Example ymd_epoch : formatYMD 0 = lit "1970-01-01".
Proof. vm_compute. reflexivity. Qed.

Example ymd_leap : formatYMD (days_from_civil 2024 2 29) = lit "2024-02-29".
Proof. vm_compute. reflexivity. Qed.

Example ymd_la :
  ymdInTZ hostUTC (Some (utcInstant 2024 6 10 5 0)) TIMEZONE
  = inr (lit "2024-06-09").
Proof. vm_compute. reflexivity. Qed.

(** ** cleanDescription *)

Lemma closeTag_None (s : jsstring) : closeTag s = None <-> GT ∉ s.
Proof.
  induction s as [|c r IH]; simpl.
  - split; [intros _; apply not_elem_of_nil | reflexivity].
  - destruct (N.eqb_spec c GT) as [->|Hne].
    + split; [discriminate | intros H; exfalso; apply H; left].
    + rewrite IH, not_elem_of_cons. intuition congruence.
Qed.

Lemma closeTag_Some (s out : jsstring) :
  closeTag s = Some out ->
  exists body r, s = body ++ GT :: r /\ (GT ∉ body) /\ out = stripTags r.
Proof.
  induction s as [|c r IH]; simpl; [discriminate|].
  destruct (N.eqb_spec c GT) as [->|Hne].
  - intros [= <-]. exists (@nil N). exists r. split; [reflexivity|].
    split; [apply not_elem_of_nil | reflexivity].
  - intros H. destruct (IH H) as (body & r' & -> & Hb & ->).
    exists (c :: body), r'. split; [reflexivity|].
    split; [|reflexivity]. rewrite not_elem_of_cons. split; congruence.
Qed.

(** The algorithm computes the replacement the pattern describes. *)
Lemma stripTags_Replaced (s : jsstring) : Replaced s (stripTags s).
Proof.
  remember (length s) as n eqn:Hn. revert s Hn.
  induction n as [n IH] using lt_wf_ind. intros [|c r] Hn; simpl.
  - constructor.
  - simpl in Hn. destruct (N.eqb_spec c LT) as [->|Hne].
    + destruct (closeTag r) as [out|] eqn:Hc.
      * apply closeTag_Some in Hc as (body & r' & -> & Hb & ->).
        apply Replaced_tag; [exact Hb|].
        apply (IH (length r')); [|reflexivity].
        rewrite Hn, length_app. simpl. lia.
      * apply Replaced_open; [now apply closeTag_None|].
        apply (IH (length r)); [lia | reflexivity].
    + apply Replaced_keep; [exact Hne|].
      apply (IH (length r)); [lia | reflexivity].
Qed.

Lemma tag_split_unique (b1 b2 r1 r2 : jsstring) :
  GT ∉ b1 -> GT ∉ b2 -> b1 ++ GT :: r1 = b2 ++ GT :: r2 ->
  b1 = b2 /\ r1 = r2.
Proof.
  revert b2. induction b1 as [|x b1 IH]; intros [|y b2] H1 H2 E; simpl in E.
  - now injection E.
  - injection E as <- _. exfalso. apply H2. left.
  - injection E as -> _. exfalso. apply H1. left.
  - injection E as <- E. rewrite not_elem_of_cons in H1, H2.
    destruct (IH b2) as [-> ->]; tauto.
Qed.

(** ... and that replacement is unique. *)
Lemma Replaced_functional (s o1 o2 : jsstring) :
  Replaced s o1 -> Replaced s o2 -> o1 = o2.
Proof.
  intros H1. revert o2.
  induction H1 as [|c r out Hc _ IH|r out Hr _ IH|body r out Hb _ IH];
    intros o2 H2.
  - inversion H2; subst; reflexivity.
  - inversion H2; subst; try congruence. f_equal. now apply IH.
  - inversion H2; subst; try congruence.
    + f_equal. now apply IH.
    + exfalso. apply Hr. rewrite elem_of_app. right. left.
  - inversion H2 as [|? ? ? Hc ?|? ? Hr ?|body' r' ? Hb' H' E]; subst.
    + congruence.
    + exfalso. apply Hr. rewrite elem_of_app. right. left.
    + destruct (tag_split_unique _ _ _ _ Hb' Hb E) as [-> ->].
      now apply IH.
Qed.

Lemma Replaced_subset (s out : jsstring) (c : N) :
  Replaced s out -> c ∈ out -> c ∈ s.
Proof.
  induction 1 as [|x r out Hc _ IH|r out Hr _ IH|body r out Hb _ IH]; intros Hin.
  - exact Hin.
  - rewrite elem_of_cons in *. tauto.
  - rewrite elem_of_cons in *. tauto.
  - rewrite elem_of_cons, elem_of_app, elem_of_cons. tauto.
Qed.

Lemma Replaced_clean (s out : jsstring) :
  Replaced s out -> noOpenBeforeClose out.
Proof.
  induction 1 as [|x r out Hc _ IH|r out Hr H IH|body r out Hb _ IH];
    intros pre suf E.
  - destruct pre; discriminate.
  - destruct pre as [|y pre]; simpl in E; inversion E; subst.
    + congruence.
    + now apply (IH pre).
  - destruct pre as [|y pre]; simpl in E; inversion E; subst.
    + intros Hin. apply Hr. eapply Replaced_subset; eauto.
    + now apply (IH pre).
  - now apply (IH pre).
Qed.

Lemma noOpenBeforeClose_infix (a s b : jsstring) :
  noOpenBeforeClose (a ++ s ++ b) -> noOpenBeforeClose s.
Proof.
  intros H pre suf ->. intros Hin.
  apply (H (a ++ pre) (suf ++ b)).
  - now rewrite <- !app_assoc.
  - rewrite elem_of_app. now left.
Qed.

Lemma noOpenBeforeClose_noTag (s : jsstring) :
  noOpenBeforeClose s -> ~ hasTag s.
Proof.
  intros H (pre & body & suf & -> & _).
  apply (H pre (body ++ [GT] ++ suf) eq_refl).
  rewrite !elem_of_app. right. left. left.
Qed.

Lemma trimStart_suffix (s : jsstring) : exists a, s = a ++ trimStart s.
Proof.
  induction s as [|c r [a IH]]; simpl.
  - now exists [].
  - destruct (isWhiteSpace c).
    + exists (c :: a). simpl. now f_equal.
    + now exists [].
Qed.

Lemma trim_infix (s : jsstring) : exists a b, s = a ++ trim s ++ b.
Proof.
  unfold trim, trimEnd.
  destruct (trimStart_suffix s) as [a Ha].
  destruct (trimStart_suffix (rev (trimStart s))) as [b Hb].
  exists a, (rev b). rewrite Ha at 1. f_equal.
  rewrite <- (rev_involutive (trimStart s)) at 1.
  rewrite Hb at 1. now rewrite rev_app_distr.
Qed.

Lemma trimStart_startsClean (s : jsstring) : startsClean (trimStart s).
Proof.
  induction s as [|c r IH]; simpl; [exact I|].
  destruct (isWhiteSpace c) eqn:E; [exact IH | exact E].
Qed.

Lemma trimStart_id (s : jsstring) : startsClean s -> trimStart s = s.
Proof. destruct s as [|c r]; simpl; [reflexivity|]. now intros ->. Qed.

Lemma startsClean_prefix (p b : jsstring) :
  startsClean (p ++ b) -> p <> [] -> startsClean p.
Proof. destruct p; simpl; [congruence | auto]. Qed.

Lemma trim_edgesClean (s : jsstring) : edgesClean (trim s).
Proof.
  unfold edgesClean, trim, trimEnd. split.
  - destruct (trimStart_suffix (rev (trimStart s))) as [a Ha].
    destruct (rev (trimStart (rev (trimStart s)))) as [|c p] eqn:E;
      [exact I|].
    apply (startsClean_prefix _ (rev a)); [|discriminate].
    rewrite <- E, <- rev_app_distr, <- Ha, rev_involutive.
    apply trimStart_startsClean.
  - rewrite rev_involutive. apply trimStart_startsClean.
Qed.

Lemma trim_id (s : jsstring) : edgesClean s -> trim s = s.
Proof.
  intros [H1 H2]. unfold trim, trimEnd.
  rewrite (trimStart_id s H1), (trimStart_id (rev s) H2).
  apply rev_involutive.
Qed.

Lemma trimStart_split (s : jsstring) :
  exists a, s = a ++ trimStart s /\ forallb isWhiteSpace a = true.
Proof.
  induction s as [|c r (a & IH & Ha)]; simpl.
  - now exists [].
  - destruct (isWhiteSpace c) eqn:E.
    + exists (c :: a). simpl. rewrite E, Ha. split; [now f_equal | reflexivity].
    + now exists [].
Qed.

Lemma forallb_rev_eq {A : Type} (f : A -> bool) (l : list A) :
  forallb f (rev l) = forallb f l.
Proof.
  induction l as [|x l IH]; [reflexivity|]. simpl.
  rewrite forallb_app, IH. simpl. rewrite andb_true_r. apply andb_comm.
Qed.

Lemma trim_Trimmed (s : jsstring) : Trimmed s (trim s).
Proof.
  destruct (trimStart_split s) as (a & Ha & Wa).
  destruct (trimStart_split (rev (trimStart s))) as (b & Hb & Wb).
  exists a, (rev b).
  split; [|split; [exact Wa | split; [now rewrite forallb_rev_eq
                                     | apply trim_edgesClean]]].
  unfold trim, trimEnd. rewrite Ha at 1. f_equal.
  rewrite <- (rev_involutive (trimStart s)) at 1.
  rewrite Hb at 1. now rewrite rev_app_distr.
Qed.

Lemma trimStart_ws_app (a s : jsstring) :
  forallb isWhiteSpace a = true -> trimStart (a ++ s) = trimStart s.
Proof.
  induction a as [|c a IH]; simpl; [reflexivity|]. intros H.
  apply andb_true_iff in H as [Hc Ha]. rewrite Hc. now apply IH.
Qed.

Lemma trimStart_ws (a : jsstring) :
  forallb isWhiteSpace a = true -> trimStart a = [].
Proof.
  intros H. rewrite <- (app_nil_r a). now rewrite trimStart_ws_app.
Qed.

(** What [Trimmed] describes is what [trim] computes, and nothing else. *)
Lemma Trimmed_trim (s text : jsstring) : Trimmed s text -> text = trim s.
Proof.
  intros (a & b & -> & Wa & Wb & Hs & He). unfold trim, trimEnd.
  rewrite trimStart_ws_app by exact Wa.
  destruct text as [|c t].
  - simpl. rewrite (trimStart_ws b Wb). reflexivity.
  - rewrite (trimStart_id ((c :: t) ++ b)) by exact Hs.
    rewrite rev_app_distr, trimStart_ws_app by now rewrite forallb_rev_eq.
    rewrite trimStart_id by exact He. now rewrite rev_involutive.
Qed.

Lemma trim_nil_iff (s : jsstring) :
  trim s = [] <-> forallb isWhiteSpace s = true.
Proof.
  split.
  - intros E. destruct (trim_Trimmed s) as (a & b & Hs & Wa & Wb & _).
    rewrite E in Hs. rewrite Hs, forallb_app, Wa. exact Wb.
  - intros H. unfold trim, trimEnd. now rewrite (trimStart_ws s H).
Qed.

Lemma cleanDescription_Some (d : jsstring) :
  cleanDescription (Some d) =
    if nonEmpty (trim (stripTags d)) then Some (trim (stripTags d)) else None.
Proof. destruct d; reflexivity. Qed.

Lemma nonEmpty_true (s : jsstring) : nonEmpty s = true <-> s <> [].
Proof. destruct s; simpl; split; congruence. Qed.

Lemma nonEmpty_false (s : jsstring) : nonEmpty s = false <-> s = [].
Proof. destruct s; simpl; split; congruence. Qed.

Lemma stripTags_nil_trim : trim (stripTags []) = [].
Proof. reflexivity. Qed.

(** The message text is the five parts of the specification in order. *)
Lemma reminderText_parts (e : Event.t) (whenLabel pretty : jsstring) :
  reminderText e whenLabel pretty =
    headerLine whenLabel ++ titleLine (Event.summary e) ++ dateLine pretty
    ++ descriptionParagraph (Event.description e)
    ++ linkLine (Event.htmlLink e).
Proof.
  unfold reminderText, headerLine, titleLine, dateLine, descriptionParagraph,
    linkLine, cleanDescription, orDefault, truthy.
  destruct (Event.summary e) as [s|], (Event.description e) as [d|],
    (Event.htmlLink e) as [l|]; simpl default;
    try destruct (nonEmpty s); try destruct (nonEmpty d) eqn:Hd;
    try destruct (nonEmpty l); simpl negb; cbv iota;
    try (destruct d; [|discriminate Hd]; simpl trim; cbv iota);
    try destruct (nonEmpty (trim (stripTags d)));
    rewrite <- ?app_assoc, ?app_nil_r; reflexivity.
Qed.

(** C10, description sanitization: [cleanDescription] answers null exactly
    when the description is absent or only white space is left of it once
    every match of the tag pattern is removed; otherwise it answers what is
    left after that removal without the white space at its two ends: a text
    that is not empty, neither starts nor ends with white space and has no
    substring matching the tag pattern; when it answers null the message
    has no description paragraph at all, and otherwise the paragraph holds
    that text. *)
Theorem cleanDescription_sanitizes (desc : option jsstring) :
  (cleanDescription desc = None <->
     desc = None
     \/ exists d out, desc = Some d /\ Replaced d out
                      /\ forallb isWhiteSpace out = true)
  /\ (forall text, cleanDescription desc = Some text ->
        exists d out, desc = Some d /\ Replaced d out /\ Trimmed out text
                      /\ text <> [] /\ ~ hasTag text)
  /\ (forall e whenLabel pretty,
        Event.description e = desc -> cleanDescription desc = None ->
        reminderText e whenLabel pretty =
          headerLine whenLabel ++ titleLine (Event.summary e)
          ++ dateLine pretty ++ linkLine (Event.htmlLink e))
  /\ (forall e whenLabel pretty text,
        Event.description e = desc -> cleanDescription desc = Some text ->
        reminderText e whenLabel pretty =
          headerLine whenLabel ++ titleLine (Event.summary e)
          ++ dateLine pretty
          ++ (NL ++ MEMO ++ lit " " ++ text ++ NL)
          ++ linkLine (Event.htmlLink e)).
Proof.
  split; [|split; [|split]].
  - destruct desc as [d|]; [|split; [now left | reflexivity]].
    rewrite cleanDescription_Some.
    destruct (nonEmpty (trim (stripTags d))) eqn:Hn.
    + split; [discriminate|].
      intros [H|(d' & out & E & HR & Hw)]; [discriminate H|].
      injection E as <-.
      rewrite (Replaced_functional d _ _ HR (stripTags_Replaced d)) in Hw.
      apply trim_nil_iff in Hw. apply nonEmpty_true in Hn. contradiction.
    + apply nonEmpty_false in Hn. split; [|reflexivity].
      intros _. right. exists d, (stripTags d).
      split; [reflexivity|]. split; [apply stripTags_Replaced|].
      now apply trim_nil_iff.
  - intros text. destruct desc as [d|]; [|discriminate].
    rewrite cleanDescription_Some.
    destruct (nonEmpty (trim (stripTags d))) eqn:Hn; [|discriminate].
    intros [= <-]. exists d, (stripTags d). split; [reflexivity|].
    split; [apply stripTags_Replaced|]. split; [apply trim_Trimmed|].
    split; [now apply nonEmpty_true|].
    apply noOpenBeforeClose_noTag.
    destruct (trim_infix (stripTags d)) as (a & b & E).
    apply (noOpenBeforeClose_infix a _ b). rewrite <- E.
    apply (Replaced_clean d), stripTags_Replaced.
  - intros e whenLabel pretty <- Hnone.
    rewrite reminderText_parts. do 3 f_equal.
    unfold descriptionParagraph.
    destruct (Event.description e) as [d|]; [|reflexivity].
    rewrite cleanDescription_Some in Hnone.
    destruct (nonEmpty (trim (stripTags d)));
      [discriminate Hnone|reflexivity].
  - intros e whenLabel pretty text <- Hsome.
    rewrite reminderText_parts. do 3 f_equal.
    unfold descriptionParagraph.
    destruct (Event.description e) as [d|]; [|discriminate Hsome].
    rewrite cleanDescription_Some in Hsome.
    destruct (nonEmpty (trim (stripTags d))); [|discriminate Hsome].
    injection Hsome as <-. now rewrite <- !app_assoc.
Qed.

Lemma cleanDescription_sanitizes_witness :
  cleanDescription (Some (lit "  <b>Bring</b> snacks <br>  "))
    = Some (lit "Bring snacks")
  /\ exists out,
       Replaced (lit "  <b>Bring</b> snacks <br>  ") out
       /\ Trimmed out (lit "Bring snacks")
       /\ ~ hasTag (lit "Bring snacks").
Proof.
  split; [vm_compute; reflexivity|].
  destruct (cleanDescription_sanitizes
              (Some (lit "  <b>Bring</b> snacks <br>  "))) as (_ & H & _).
  destruct (H (lit "Bring snacks") ltac:(vm_compute; reflexivity))
    as (d & out & E & HR & HT & _ & Hno).
  injection E as <-. exists out. split; [exact HR|]. split; [exact HT|].
  exact Hno.
Defined.

(** ** Running the monad *)

Lemma label_inj (th th' : Threshold) : label th = label th' -> th = th'.
Proof.
  destruct th, th'; intros H; try reflexivity; vm_compute in H; discriminate.
Qed.

Lemma pairOf_inj (r : Request) (i i' : jsstring) (th th' : Threshold) :
  pairOf r i th -> pairOf r i' th' -> i = i' /\ th = th'.
Proof.
  intros [H1 H2] [H3 H4]. split; [congruence|].
  apply label_inj. congruence.
Qed.

Lemma isFor_true (r : Request) (i : jsstring) (th : Threshold) :
  isFor i th r = true <-> pairOf r i th.
Proof.
  unfold isFor, pairOf. rewrite andb_true_iff, !bool_decide_eq_true. tauto.
Qed.

Lemma prettyStart_prettyOf (P : Platform) (e : Event.t) (pretty : jsstring) :
  prettyStart P e = inr pretty -> prettyOf P e pretty.
Proof.
  unfold prettyStart, prettyOf, allDayDate, newDate.
  destruct (Event.start e) as [st|]; [|discriminate].
  intros H. exists st. split; [reflexivity|].
  destruct (Start.date st) as [d|].
  - destruct (nonEmpty d) eqn:Hd; simpl in H.
    + destruct (truthy (Start.dateTime st)) eqn:Ht; simpl in H.
      * right. destruct (Start.dateTime st) as [s|]; [|discriminate].
        destruct (Date_parse P s) as [t|] eqn:Hp; [|discriminate].
        injection H as <-. now exists s, t.
      * left. injection H as <-. auto.
    + right. destruct (Start.dateTime st) as [s|]; [|discriminate].
      destruct (Date_parse P s) as [t|] eqn:Hp; [|discriminate].
      injection H as <-. now exists s, t.
  - right. destruct (Start.dateTime st) as [s|]; [|discriminate].
    destruct (Date_parse P s) as [t|] eqn:Hp; [|discriminate].
    injection H as <-. now exists s, t.
Qed.

Section BotFacts.

Variable P : Platform.
Variable slack : nat -> bool.

Lemma sendSlackReminder_run (e : Event.t) (whenLabel : jsstring) (w : World) :
  sendSlackReminder P slack e whenLabel w =
    match prettyStart P e with
    | inl err => (inl err, w)
    | inr pretty =>
        let d := slack (length (outbox w)) in
        (if d then inr tt else inl SlackError,
         post (mkRequest e whenLabel pretty d) w)
    end.
Proof.
  unfold sendSlackReminder, liftE, mbind, M_bind.
  destruct (prettyStart P e); reflexivity.
Qed.

Lemma eventBody_blocks (tomorrowYMD weekYMD : jsstring) (e : Event.t) :
  eventBody P slack tomorrowYMD weekYMD e =
    match Event.id e, Event.start e with
    | Some i, Some start =>
        if negb (nonEmpty i) then mret tt
        else if negb (truthy (orElse (Start.dateTime start) (Start.date start)))
        then mret tt
        else
          ymd ← liftE (eventYMD P start);
          remindBlock P slack OneDay tomorrowYMD ymd e i ;;
          remindBlock P slack OneWeek weekYMD ymd e i
    | _, _ => mret tt
    end.
Proof. reflexivity. Qed.

(** *** The growth invariant *)

Lemma Grow_nil (w w' : World) :
  outbox w' = outbox w -> remindedDay w' = remindedDay w ->
  remindedWeek w' = remindedWeek w -> Grow P slack w [] w'.
Proof.
  intros Ho Hd Hw. unfold Grow. rewrite app_nil_r.
  split; [exact Ho|]. split; [|split].
  - intros []; simpl; [rewrite Hd|rewrite Hw]; reflexivity.
  - intros i []; simpl; [rewrite Hd|rewrite Hw]; reflexivity.
  - intros r Hr. inversion Hr.
Qed.

Lemma Grow_app (w w1 w2 : World) (n1 n2 : list Request) :
  Grow P slack w n1 w1 -> Grow P slack w1 n2 w2 ->
  Grow P slack w (n1 ++ n2) w2.
Proof.
  intros (Ho1 & Hs1 & Hc1 & Hr1) (Ho2 & Hs2 & Hc2 & Hr2).
  split; [|split; [|split]].
  - rewrite Ho2, Ho1. now rewrite app_assoc.
  - intros th. etransitivity; [apply Hs1 | apply Hs2].
  - intros i th. unfold deliveredFor in *.
    rewrite List.filter_app, length_app.
    specialize (Hc1 i th). specialize (Hc2 i th). lia.
  - intros r Hr. apply elem_of_app in Hr as [Hr|Hr]; [now apply Hr1|].
    destruct (Hr2 r Hr) as (i & th & k & Hp & Hne & Hni & Hsh & Hk).
    exists i, th, k. split; [exact Hp|]. split; [exact Hne|].
    split; [|now split]. intros Hin. apply Hni. now apply (Hs1 th).
Qed.

Lemma Inv_same (w w' : World) (res : Error + unit) :
  outbox w' = outbox w -> remindedDay w' = remindedDay w ->
  remindedWeek w' = remindedWeek w -> res <> inl SlackError ->
  Inv P slack w res w'.
Proof.
  intros Ho Hd Hw Hres. exists []. split; [now apply Grow_nil|].
  split; [intros r Hr; inversion Hr | intros H; contradiction].
Qed.

Lemma Inv_seq (m1 m2 : M unit) (w : World) :
  Inv P slack w (m1 w).1 (m1 w).2 ->
  (forall w1, Inv P slack w1 (m2 w1).1 (m2 w1).2) ->
  Inv P slack w ((m1 ;; m2) w).1 ((m1 ;; m2) w).2.
Proof.
  intros H1 H2. unfold mbind, M_bind.
  destruct (m1 w) as [[err|[]] w1]; simpl in *; [exact H1|].
  specialize (H2 w1). destruct (m2 w1) as [res w2]; simpl in *.
  destruct H1 as (n1 & G1 & F1 & _), H2 as (n2 & G2 & F2 & E2).
  exists (n1 ++ n2). split; [now apply (Grow_app w w1 w2)|]. split.
  - intros r Hr Hd. apply elem_of_app in Hr as [Hr|Hr].
    + destruct (F1 r Hr Hd) as [Habs _]. discriminate Habs.
    + now apply F2.
  - intros Hres. destruct (E2 Hres) as (r & Hr & Hd).
    exists r. split; [|exact Hd]. apply elem_of_app. now right.
Qed.

Lemma Inv_forOf (body : Event.t -> M unit) (events : list Event.t) :
  (forall e w, Inv P slack w (body e w).1 (body e w).2) ->
  forall w, Inv P slack w (forOf events body w).1 (forOf events body w).2.
Proof.
  intros Hbody. induction events as [|e rest IH]; intros w.
  - simpl. now apply Inv_same.
  - simpl. apply Inv_seq; [apply Hbody | exact IH].
Qed.

Lemma prettyStart_not_slack (e : Event.t) : prettyStart P e <> inl SlackError.
Proof.
  unfold prettyStart.
  destruct (Event.start e) as [st|]; [|discriminate].
  destruct (allDayDate st); [discriminate|].
  destruct (newDate P (Start.dateTime st)); discriminate.
Qed.

Lemma addReminded_run (th : Threshold) (i : jsstring) (w : World) :
  exists w', addReminded th i w = (inr tt, w')
    /\ outbox w' = outbox w
    /\ reminded th w' = {[ i ]} ∪ reminded th w
    /\ forall th', th' <> th -> reminded th' w' = reminded th' w.
Proof.
  destruct th; simpl; eexists; (split; [reflexivity|]); simpl;
    (split; [reflexivity|]); (split; [reflexivity|]);
    intros []; simpl; congruence.
Qed.

Lemma deliveredFor_single (e : Event.t) (i i' : jsstring) (th th' : Threshold)
    (pretty : jsstring) (d : bool) :
  Event.id e = Some i ->
  length (deliveredFor i' th' [mkRequest e (label th) pretty d])
  = Nat.b2n (d && bool_decide (i' = i) && bool_decide (th' = th)).
Proof.
  intros Hid. unfold deliveredFor, isFor. simpl. rewrite Hid.
  destruct (decide (i' = i)) as [->|Hi], (decide (th' = th)) as [->|Hth].
  - rewrite !bool_decide_eq_true_2 by reflexivity. now destruct d.
  - rewrite (bool_decide_eq_false_2 (label th = label th')), (bool_decide_eq_false_2 (th' = th));
      [|assumption|intros H; apply label_inj in H; congruence].
    rewrite !andb_false_r. reflexivity.
  - rewrite (bool_decide_eq_false_2 (Some i = Some i')), (bool_decide_eq_false_2 (i' = i));
      [|assumption|congruence].
    rewrite !andb_false_r. reflexivity.
  - rewrite (bool_decide_eq_false_2 (Some i = Some i')), (bool_decide_eq_false_2 (i' = i));
      [|assumption|congruence].
    rewrite !andb_false_r. reflexivity.
Qed.

Lemma Shaped_mkRequest (e : Event.t) (whenLabel pretty : jsstring) (d : bool) :
  prettyStart P e = inr pretty -> Shaped P (mkRequest e whenLabel pretty d).
Proof.
  intros Hp. exists pretty. split; [now apply prettyStart_prettyOf|].
  simpl. apply reminderText_parts.
Qed.

Lemma Inv_remindBlock (th : Threshold) (target ymd : jsstring) (e : Event.t)
    (i : jsstring) (w : World) :
  Event.id e = Some i -> nonEmpty i = true ->
  Inv P slack w (remindBlock P slack th target ymd e i w).1
                (remindBlock P slack th target ymd e i w).2.
Proof.
  intros Hid Hne. unfold remindBlock, mbind, M_bind, getWorld.
  destruct (bool_decide (ymd = target)
            && negb (bool_decide (i ∈ reminded th w))) eqn:G.
  2: { now apply Inv_same. }
  apply andb_prop in G as [_ G]. apply negb_true_iff in G.
  apply bool_decide_eq_false in G.
  rewrite sendSlackReminder_run.
  destruct (prettyStart P e) as [err|pretty] eqn:Hp.
  { simpl. apply Inv_same; try reflexivity.
    intros [= ->]. now apply (prettyStart_not_slack e). }
  cbv zeta. set (k := length (outbox w)).
  assert (Hreq : forall d r, r ∈ [mkRequest e (label th) pretty d] ->
            pairOf r i th /\ Shaped P r /\ req_delivered r = d).
  { intros d r Hr. apply list_elem_of_singleton in Hr as ->.
    split; [now split|]. split; [now apply Shaped_mkRequest | reflexivity]. }
  destruct (slack k) eqn:Hk.
  - destruct (addReminded_run th i (post (mkRequest e (label th) pretty true) w))
      as (w' & -> & Ho & Hth & Hoth). simpl.
    exists [mkRequest e (label th) pretty true]. split; [|split].
    + split; [exact Ho|]. split; [|split].
      * intros th'. destruct (decide (th' = th)) as [->|Hne'].
        -- rewrite Hth. simpl. destruct th; simpl; set_solver.
        -- rewrite (Hoth th' Hne'). destruct th'; reflexivity.
      * intros i' th'. rewrite (deliveredFor_single e i) by exact Hid.
        simpl. destruct (decide (th' = th)) as [->|Hne'].
        -- rewrite Hth.
           replace (reminded th (post (mkRequest e (label th) pretty true) w))
             with (reminded th w) by (destruct th; reflexivity).
           rewrite (bool_decide_eq_true_2 (th = th)) by reflexivity.
           rewrite andb_true_r.
           destruct (decide (i' = i)) as [->|Hi].
           ++ rewrite (bool_decide_eq_true_2 (i = i)) by reflexivity.
              rewrite (bool_decide_eq_false_2 _ G).
              rewrite bool_decide_eq_true_2 by set_solver. reflexivity.
           ++ rewrite (bool_decide_eq_false_2 (i' = i)) by exact Hi. simpl.
              f_equal. apply bool_decide_ext. set_solver.
        -- rewrite (Hoth th' Hne').
           rewrite (bool_decide_eq_false_2 (th' = th)) by exact Hne'.
           rewrite andb_false_r. simpl. destruct th'; reflexivity.
      * intros r Hr. destruct (Hreq true r Hr) as (Hp' & Hs & Hd).
        exists i, th, k. split; [exact Hp'|]. split; [exact Hne|].
        split; [exact G|]. split; [exact Hs|]. congruence.
    + intros r Hr Hd. destruct (Hreq true r Hr) as (_ & _ & Hd').
      congruence.
    + discriminate.
  - simpl. exists [mkRequest e (label th) pretty false]. split; [|split].
    + split; [reflexivity|]. split; [|split].
      * intros th'. destruct th'; reflexivity.
      * intros i' th'. rewrite (deliveredFor_single e i) by exact Hid.
        simpl. destruct th'; reflexivity.
      * intros r Hr. destruct (Hreq false r Hr) as (Hp' & Hs & Hd).
        exists i, th, k. split; [exact Hp'|]. split; [exact Hne|].
        split; [exact G|]. split; [exact Hs|]. congruence.
    + intros r Hr _. split; [reflexivity|].
      destruct (Hreq false r Hr) as (Hp' & _ & _).
      intros i' th' Hp''. destruct (pairOf_inj _ _ _ _ _ Hp' Hp'') as [<- <-].
      destruct th; exact G.
    + intros _. exists (mkRequest e (label th) pretty false).
      split; [apply list_elem_of_singleton; reflexivity | reflexivity].
Qed.

Lemma Inv_eventBody (tomorrowYMD weekYMD : jsstring) (e : Event.t) (w : World) :
  Inv P slack w (eventBody P slack tomorrowYMD weekYMD e w).1
                (eventBody P slack tomorrowYMD weekYMD e w).2.
Proof.
  rewrite eventBody_blocks.
  destruct (Event.id e) as [i|] eqn:Hid; [|now apply Inv_same].
  destruct (Event.start e) as [st|]; [|now apply Inv_same].
  destruct (nonEmpty i) eqn:Hne; simpl negb; cbv iota; [|now apply Inv_same].
  destruct (negb (truthy (orElse (Start.dateTime st) (Start.date st))));
    [now apply Inv_same|].
  unfold mbind at 1. unfold M_bind at 1. unfold liftE.
  destruct (eventYMD P st) as [err|ymd] eqn:Hy.
  - simpl. apply Inv_same; try reflexivity.
    intros [= ->]. revert Hy. unfold eventYMD, ymdInTZ.
    destruct (allDayDate st); [discriminate|].
    destruct (newDate P (Start.dateTime st)); discriminate.
  - apply Inv_seq; [|intros w1]; now apply Inv_remindBlock.
Qed.

(** *** One cycle, and a chain of cycles *)

Lemma ymdInTZ_window (now days : Z) :
  ymdInTZ P (addDays P (Some now) days) TIMEZONE = inr (windowYMD P now days).
Proof. reflexivity. Qed.

Lemma getUpcomingEvents_run (c : Cycle) (minutesAhead : Z) (w : World) :
  exists res w0,
    getUpcomingEvents c minutesAhead w = (res, w0)
    /\ outbox w0 = outbox w /\ remindedDay w0 = remindedDay w
    /\ remindedWeek w0 = remindedWeek w
    /\ match res with
       | inl err => err = AuthError \/ err = FetchError
       | inr _ => True
       end.
Proof.
  unfold getUpcomingEvents, mbind, M_bind, getWorld, throw, setGoogleAuthed.
  cbv zeta.
  destruct (googleAuthed w), (authorizes c), (listing c _ _) as [[ev|]|];
    simpl; eexists; eexists; (split; [reflexivity|]); simpl;
    repeat (split; [reflexivity|]); auto.
Qed.

Lemma checkCalendarAndNotify_unfold (c : Cycle) (w : World) :
  checkCalendarAndNotify P slack c w =
    match getUpcomingEvents c (9 * 24 * 60) w with
    | (inl _, w0) => (inr tt, w0)
    | (inr events, w0) =>
        (inr tt,
         (forOf events
            (eventBody P slack (windowYMD P (clock c) 1)
                                (windowYMD P (clock c) 7)) w0).2)
    end.
Proof.
  unfold checkCalendarAndNotify, tryCatch.
  unfold mbind at 1. unfold M_bind at 1.
  destruct (getUpcomingEvents c (9 * 24 * 60) w) as [[err|events] w0];
    [reflexivity|].
  unfold mbind, M_bind, liftE. simpl.
  destruct (forOf events _ w0) as [[err|[]] w1]; reflexivity.
Qed.

Lemma Inv_cycle (c : Cycle) (w : World) :
  (checkCalendarAndNotify P slack c w).1 = inr tt
  /\ exists res, Inv P slack w res (checkCalendarAndNotify P slack c w).2.
Proof.
  rewrite checkCalendarAndNotify_unfold.
  destruct (getUpcomingEvents_run c (9 * 24 * 60) w)
    as (res & w0 & -> & Ho & Hd & Hw & Hres).
  destruct res as [err|events]; simpl.
  - split; [reflexivity|]. exists (inl err). apply Inv_same; try assumption.
    destruct Hres as [-> | ->]; discriminate.
  - split; [reflexivity|].
    pose proof (Inv_forOf
      (eventBody P slack (windowYMD P (clock c) 1) (windowYMD P (clock c) 7))
      events (Inv_eventBody _ _) w0) as (new & G & F & E).
    eexists. exists new. split; [|split; [exact F|exact E]].
    replace new with ([] ++ new) by reflexivity.
    apply (Grow_app w w0); [now apply Grow_nil | exact G].
Qed.

Lemma Grow_runCycles (cs : list Cycle) (w : World) :
  (runCycles P slack cs w).1 = inr tt
  /\ exists new, Grow P slack w new (runCycles P slack cs w).2.
Proof.
  revert w. induction cs as [|c rest IH]; intros w; simpl.
  - split; [reflexivity|]. exists []. now apply Grow_nil.
  - unfold mbind, M_bind.
    destruct (Inv_cycle c w) as (Hres & res & new & G & _).
    destruct (checkCalendarAndNotify P slack c w) as [[err|[]] w1];
      simpl in *; [discriminate|].
    destruct (IH w1) as (Hr & new' & G').
    split; [exact Hr|]. exists (new ++ new'). now apply (Grow_app w w1).
Qed.

End BotFacts.

Lemma filter_none {A : Type} (f : A -> bool) (l : list A) :
  (forall x, x ∈ l -> f x = false) -> List.filter f l = [].
Proof.
  induction l as [|a l IH]; intros H; simpl; [reflexivity|].
  rewrite (H a) by left. apply IH. intros x Hx. apply H. now right.
Qed.

Lemma filter_same {A : Type} (f g : A -> bool) (l : list A) :
  (forall x, x ∈ l -> f x = g x) -> List.filter f l = List.filter g l.
Proof.
  induction l as [|a l IH]; intros H; simpl; [reflexivity|].
  rewrite (H a) by left. rewrite IH; [reflexivity|].
  intros x Hx. apply H. now right.
Qed.

(** ** Runs as tasks *)

Section TaskFacts.

Variable P : Platform.
Variable slack : nat -> bool.

Lemma runTask_Finished (n : nat) (w : World) :
  runTask P slack n Finished w = (Finished, w).
Proof. induction n as [|n IH]; simpl; [reflexivity | exact IH]. Qed.

Lemma runTask_S (n : nat) (t : Task) (w : World) :
  runTask P slack (S n) t w
  = runTask P slack n (resume P slack t w).1 (resume P slack t w).2.
Proof. simpl. now destruct (resume P slack t w). Qed.

Lemma runTask_add (n m : nat) (t : Task) (w : World) :
  runTask P slack (n + m) t w
  = runTask P slack m (runTask P slack n t w).1 (runTask P slack n t w).2.
Proof.
  revert t w. induction n as [|n IH]; intros t w; [reflexivity|].
  rewrite Nat.add_succ_l, !runTask_S. apply IH.
Qed.

(** A run ends in one state only, however many resumptions are spent. *)
Lemma runTask_functional (n m : nat) (t : Task) (w w1 w2 : World) :
  runTask P slack n t w = (Finished, w1) ->
  runTask P slack m t w = (Finished, w2) -> w1 = w2.
Proof.
  intros H1 H2.
  pose proof (runTask_add n m t w) as A.
  rewrite H1 in A. simpl in A. rewrite runTask_Finished in A.
  pose proof (runTask_add m n t w) as B.
  rewrite H2 in B. simpl in B. rewrite runTask_Finished in B.
  rewrite Nat.add_comm in B. congruence.
Qed.

Lemma addReminded_ok (th : Threshold) (i : jsstring) (w : World) :
  addReminded th i w = (inr tt, (addReminded th i w).2).
Proof. destruct th; reflexivity. Qed.

(** A guarded block of the loop body is [startBlock] followed, after the
    await, by the recording of a delivered request. *)
Lemma remindBlock_startBlock (th : Threshold) (target ymd : jsstring)
    (e : Event.t) (i : jsstring) (w : World) :
  remindBlock P slack th target ymd e i w =
    match startBlock P slack th target ymd e i w with
    | Skip => (inr tt, w)
    | Threw err => (inl err, w)
    | Posted d w' =>
        if d then (inr tt, (addReminded th i w').2) else (inl SlackError, w')
    end.
Proof.
  unfold remindBlock, startBlock, mbind, M_bind, getWorld.
  destruct (bool_decide (ymd = target)
            && negb (bool_decide (i ∈ reminded th w))); [|reflexivity].
  rewrite sendSlackReminder_run.
  destruct (prettyStart P e) as [err|pretty]; [reflexivity|].
  cbv zeta. destruct (slack (length (outbox w))); [|reflexivity].
  apply addReminded_ok.
Qed.

(** Resumed until it is over, the loop of a task does what [forOf] does. *)
Lemma loopFrom_settles (c : Cycle) (events : list Event.t) (w : World) :
  exists n,
    runTask P slack n (loopFrom P slack c events w).1
                      (loopFrom P slack c events w).2
    = (Finished,
       (forOf events (eventBody P slack (windowYMD P (clock c) 1)
                                        (windowYMD P (clock c) 7)) w).2).
Proof.
  revert w. induction events as [|e rest IH]; intros w.
  { exists 0%nat. reflexivity. }
  cbn [loopFrom forOf]. unfold mbind at 1. unfold M_bind at 1.
  rewrite eventBody_blocks.
  destruct (Event.id e) as [i|]; [|apply IH].
  destruct (Event.start e) as [st|]; [|apply IH].
  destruct (negb (nonEmpty i)); [apply IH|].
  destruct (negb (truthy (orElse (Start.dateTime st) (Start.date st))));
    [apply IH|].
  unfold mbind at 1. unfold M_bind at 1. unfold liftE.
  destruct (eventYMD P st) as [err|ymd]; [exists 0%nat; reflexivity|].
  unfold mbind at 1. unfold M_bind at 1.
  assert (Hweek : forall w1,
    exists n,
      runTask P slack n
        (weekBlock P slack c e i ymd rest (loopFrom P slack c rest) w1).1
        (weekBlock P slack c e i ymd rest (loopFrom P slack c rest) w1).2
      = (Finished,
         (match remindBlock P slack OneWeek (windowYMD P (clock c) 7)
                  ymd e i w1 with
          | (inl err, w') => (inl err, w')
          | (inr _, w') =>
              forOf rest (eventBody P slack (windowYMD P (clock c) 1)
                                            (windowYMD P (clock c) 7)) w'
          end).2)).
  { intros w1. unfold weekBlock. rewrite remindBlock_startBlock.
    destruct (startBlock P slack OneWeek _ ymd e i w1) as [|err|d w2].
    - apply IH.
    - exists 0%nat. reflexivity.
    - destruct d.
      + destruct (IH (addReminded OneWeek i w2).2) as [n Hn].
        exists (S n). rewrite runTask_S. exact Hn.
      + exists 1%nat. reflexivity. }
  rewrite remindBlock_startBlock.
  destruct (startBlock P slack OneDay _ ymd e i w) as [|err|d w1].
  - apply Hweek.
  - exists 0%nat. reflexivity.
  - destruct d.
    + destruct (Hweek (addReminded OneDay i w1).2) as [n Hn].
      exists (S n). rewrite runTask_S. exact Hn.
    + exists 1%nat. reflexivity.
Qed.

(** A run resumed until it is over, with nothing in between, ends in the
    state [checkCalendarAndNotify] gives. *)
Lemma runTask_cycle (c : Cycle) (w : World) :
  exists n,
    runTask P slack n (Idle c) w
    = (Finished, (checkCalendarAndNotify P slack c w).2).
Proof.
  assert (Hlist : forall w0, exists n,
    runTask P slack n (AwaitList c) w0
    = (Finished,
       match listing c (fetchClock c)
               (fetchClock c + 9 * 24 * 60 * 60 * 1000) with
       | Some items =>
           (forOf (default [] items)
              (eventBody P slack (windowYMD P (clock c) 1)
                                  (windowYMD P (clock c) 7)) w0).2
       | None => w0
       end)).
  { intros w0.
    destruct (listing c (fetchClock c)
                (fetchClock c + 9 * 24 * 60 * 60 * 1000)) as [items|] eqn:E.
    - destruct (loopFrom_settles c (default [] items) w0) as [n Hn].
      exists (S n). rewrite runTask_S. cbn [resume]. rewrite E. exact Hn.
    - exists 1%nat. cbn [runTask resume]. now rewrite E. }
  rewrite checkCalendarAndNotify_unfold.
  unfold getUpcomingEvents, mbind, M_bind, getWorld, throw. cbv zeta.
  destruct (googleAuthed w) eqn:G; cbn [negb].
  - destruct (Hlist w) as [n Hn]. exists (S n).
    rewrite runTask_S. cbn [resume]. rewrite G. cbn [negb fst snd].
    rewrite Hn. f_equal.
    now destruct (listing c (fetchClock c) _) as [items|].
  - destruct (authorizes c) eqn:A.
    + destruct (Hlist (setGoogleAuthed true w).2) as [n Hn].
      exists (S (S n)). rewrite !runTask_S. cbn [resume]. rewrite G.
      cbn [negb fst snd resume]. rewrite A. cbn [fst snd].
      rewrite Hn. f_equal.
      now destruct (listing c (fetchClock c) _) as [items|].
    + exists 2%nat. cbn [runTask resume]. rewrite G. cbn [negb resume].
      now rewrite A.
Qed.

(** Runs that do not overlap are the chain [runCycles]. *)
Lemma Serial_runCycles (cs : list Cycle) (w w' : World) :
  Serial P slack cs w w' <-> w' = (runCycles P slack cs w).2.
Proof.
  assert (Hchain : forall c rest w0,
            (runCycles P slack (c :: rest) w0).2
            = (runCycles P slack rest
                 (checkCalendarAndNotify P slack c w0).2).2).
  { intros c rest w0. cbn [runCycles]. unfold mbind, M_bind.
    pose proof (proj1 (Inv_cycle P slack c w0)) as Hr.
    destruct (checkCalendarAndNotify P slack c w0) as [[err|[]] w1];
      [discriminate Hr | reflexivity]. }
  split.
  - induction 1 as [w0|c cs n w0 w1 w2 Hrun _ IH]; [reflexivity|].
    rewrite Hchain. destruct (runTask_cycle c w0) as [m Hm].
    now rewrite <- (runTask_functional _ _ _ _ _ _ Hrun Hm).
  - intros ->. revert w. induction cs as [|c cs IH]; intros w.
    + constructor.
    + destruct (runTask_cycle c w) as [n Hn].
      apply (Serial_cons P slack c cs n w _ _ Hn).
      rewrite Hchain. apply IH.
Qed.

(** *** Serial runs are among the schedules of the process *)

Lemma runSchedule_app (s1 s2 : list nat) (pool : list Task) (w : World) :
  runSchedule P slack (s1 ++ s2) pool w
  = runSchedule P slack s2 (runSchedule P slack s1 pool w).1
                           (runSchedule P slack s1 pool w).2.
Proof.
  revert pool w. induction s1 as [|k s1 IH]; intros pool w; [reflexivity|].
  cbn [app runSchedule]. destruct (stepAt P slack k pool w) as [pool' w'].
  apply IH.
Qed.

Lemma runSchedule_repeat (k n : nat) (pool : list Task) (t : Task)
    (w : World) :
  pool !! k = Some t ->
  runSchedule P slack (repeat k n) pool w
  = (<[k := (runTask P slack n t w).1]> pool, (runTask P slack n t w).2).
Proof.
  revert pool t w. induction n as [|n IH]; intros pool t w Hk.
  - cbn [repeat runSchedule runTask fst snd]. now rewrite list_insert_id.
  - cbn [repeat runSchedule]. unfold stepAt. rewrite Hk, runTask_S.
    destruct (resume P slack t w) as [t' w1]. cbn [fst snd].
    rewrite (IH (<[k := t']> pool) t' w1).
    + now rewrite list_insert_insert_eq.
    + apply list_lookup_insert_eq. now apply (lookup_lt_Some _ _ t).
Qed.

Lemma Serial_schedule (cs : list Cycle) (w w' : World) :
  Serial P slack cs w w' ->
  forall done, exists sched,
    runSchedule P slack sched (done ++ map Idle cs) w
    = (done ++ map (fun _ => Finished) cs, w').
Proof.
  induction 1 as [w0|c cs n w0 w1 w2 Hrun _ IH]; intros done.
  - exists []. reflexivity.
  - destruct (IH (done ++ [Finished])) as [sched Hs].
    exists (repeat (length done) n ++ sched).
    rewrite runSchedule_app.
    rewrite (runSchedule_repeat (length done) n _ (Idle c)).
    + rewrite Hrun. cbn [fst snd map].
      rewrite insert_app_r_alt by lia. rewrite Nat.sub_diag.
      change (done ++ <[0%nat := Finished]> (Idle c :: map Idle cs))
        with (done ++ [Finished] ++ map Idle cs).
      rewrite app_assoc, Hs. now rewrite <- app_assoc.
    + cbn [map]. now apply list_lookup_middle.
Qed.

End TaskFacts.


(** * The claims *)

(** C1 as stated fails: the qualifying event is seen by two cycles, the
    first delivery is rejected, and two requests are made for the one
    (id, OneDay) pair. *)
Lemma dedup_counterexample :
  length (requestsFor (lit "a") OneDay
            (outbox (runCycles hostUTC firstPostFails [june9; june9]
                       processStart).2)) = 2%nat.
Proof. vm_compute. reflexivity. Qed.

(** Over a chain of runs, one after the other, at most one request for a
    pair is delivered. *)
Lemma runCycles_at_most_one (P : Platform) (slack : nat -> bool)
    (cs : list Cycle) (w : World) (i : jsstring) (th : Threshold) :
  exists new,
    outbox (runCycles P slack cs w).2 = outbox w ++ new
    /\ (length (deliveredFor i th new) <= 1)%nat
    /\ (i ∈ reminded th w -> requestsFor i th new = [])
    /\ ((forall k, slack k = true) ->
          (length (requestsFor i th new) <= 1)%nat).
Proof.
  destruct (Grow_runCycles P slack cs w) as (_ & new & Ho & _ & Hc & Hr).
  exists new. split; [exact Ho|].
  assert (Hone : (length (deliveredFor i th new) <= 1)%nat).
  { specialize (Hc i th).
    destruct (bool_decide (i ∈ reminded th (runCycles P slack cs w).2));
      simpl in Hc; lia. }
  split; [exact Hone|]. split.
  - intros Hin. apply filter_none. intros r Hrn.
    destruct (Hr r Hrn) as (i' & th' & k & Hp & _ & Hni & _).
    destruct (isFor i th r) eqn:E; [|reflexivity].
    apply isFor_true in E. destruct (pairOf_inj _ _ _ _ _ E Hp) as [-> ->].
    contradiction.
  - intros Hall. unfold requestsFor.
    rewrite (filter_same _ (fun r => isFor i th r && req_delivered r)).
    + exact Hone.
    + intros r Hrn. destruct (Hr r Hrn) as (_ & _ & k & _ & _ & _ & _ & ->).
      rewrite Hall. now rewrite andb_true_r.
Qed.

(** Two runs that overlap deliver the same pair twice: each tests the
    reminded set before the other has recorded its delivery.  The guarantee
    below is therefore one about runs that do not overlap. *)
Lemma overlapping_runs_deliver_twice :
  let r := runSchedule hostUTC alwaysDelivers [0; 1; 0; 1; 0; 1; 0; 1]%nat
             [Idle june9; Idle june9] processStart in
  r.1 = [Finished; Finished]
  /\ map req_delivered (requestsFor (lit "a") OneDay (outbox r.2))
     = [true; true].
Proof. vm_compute. split; reflexivity. Qed.

(** C1, amended: runs of [checkCalendarAndNotify] that do not overlap, each
    finished before the next starts, always come to an end, and over any
    number of them from any state at most one request for an
    (id, threshold) pair is delivered; once the pair is in the reminded set
    no request at all is made for it; and when no delivery fails at most
    one request is made for the pair. *)
Theorem at_most_one_delivery (P : Platform) (slack : nat -> bool)
    (cs : list Cycle) (w : World) (i : jsstring) (th : Threshold) :
  (exists w', Serial P slack cs w w')
  /\ forall w', Serial P slack cs w w' ->
       exists new,
         outbox w' = outbox w ++ new
         /\ (length (deliveredFor i th new) <= 1)%nat
         /\ (i ∈ reminded th w -> requestsFor i th new = [])
         /\ ((forall k, slack k = true) ->
               (length (requestsFor i th new) <= 1)%nat).
Proof.
  split.
  - exists (runCycles P slack cs w).2. now apply Serial_runCycles.
  - intros w' HS. apply Serial_runCycles in HS. subst w'.
    apply runCycles_at_most_one.
Qed.

Lemma at_most_one_delivery_witness :
  exists w1 w2 new,
    Serial hostUTC alwaysDelivers [june9] processStart w1
    /\ Serial hostUTC alwaysDelivers [june9; june9] w1 w2
    /\ lit "a" ∈ reminded OneDay w1
    /\ outbox w2 = outbox w1 ++ new
    /\ requestsFor (lit "a") OneDay new = []
    /\ (length (deliveredFor (lit "a") OneDay new) <= 1)%nat.
Proof.
  destruct (at_most_one_delivery hostUTC alwaysDelivers [june9] processStart
              (lit "a") OneDay) as [[w1 H1] _].
  destruct (at_most_one_delivery hostUTC alwaysDelivers [june9; june9] w1
              (lit "a") OneDay) as [[w2 H2] H].
  destruct (H w2 H2) as (new & Ho & Hone & Hin & _).
  assert (Hm : lit "a" ∈ reminded OneDay w1).
  { apply Serial_runCycles in H1. subst w1. vm_compute. reflexivity. }
  exists w1, w2, new. split; [exact H1|]. split; [exact H2|].
  split; [exact Hm|]. split; [exact Ho|]. split; [exact (Hin Hm) | exact Hone].
Defined.


Section Claims.

Variable P : Platform.
Variable slack : nat -> bool.

Lemma remindBlock_skip (th : Threshold) (target ymd : jsstring) (e : Event.t)
    (i : jsstring) (w : World) :
  ymd <> target \/ i ∈ reminded th w ->
  remindBlock P slack th target ymd e i w = (inr tt, w).
Proof.
  intros H. unfold remindBlock, mbind, M_bind, getWorld.
  destruct H as [H|H].
  - now rewrite (bool_decide_eq_false_2 _ H).
  - rewrite (bool_decide_eq_true_2 _ H). simpl. now rewrite andb_false_r.
Qed.

Lemma remindBlock_fire (th : Threshold) (target : jsstring) (e : Event.t)
    (i pretty : jsstring) (w : World) :
  i ∉ reminded th w -> prettyStart P e = inr pretty ->
  let d := slack (length (outbox w)) in
  let r := mkRequest e (label th) pretty d in
  exists w', remindBlock P slack th target target e i w
             = (if d then inr tt else inl SlackError, w')
    /\ outbox w' = outbox w ++ [r].
Proof.
  intros Hni Hp. cbv zeta. unfold remindBlock, mbind, M_bind, getWorld.
  rewrite (bool_decide_eq_true_2 (target = target)) by reflexivity.
  rewrite (bool_decide_eq_false_2 _ Hni). cbn [andb negb].
  rewrite sendSlackReminder_run, Hp. cbv zeta.
  destruct (slack (length (outbox w))).
  - destruct (addReminded_run th i (post (mkRequest e (label th) pretty true) w))
      as (w' & -> & Ho & _). exists w'. split; [reflexivity|exact Ho].
  - eexists. split; reflexivity.
Qed.

(** A block posts at most once, and only for its own event and label. *)
Lemma remindBlock_outbox (th : Threshold) (target ymd : jsstring) (e : Event.t)
    (i : jsstring) (w : World) :
  exists new,
    outbox (remindBlock P slack th target ymd e i w).2 = outbox w ++ new
    /\ (length new <= 1)%nat
    /\ forall r, r ∈ new -> req_event r = e /\ req_label r = label th.
Proof.
  unfold remindBlock, mbind, M_bind, getWorld.
  destruct (bool_decide (ymd = target)
            && negb (bool_decide (i ∈ reminded th w))).
  2: { exists []. simpl. rewrite app_nil_r. split; [reflexivity|].
       split; [lia|]. intros r Hr. inversion Hr. }
  rewrite sendSlackReminder_run.
  destruct (prettyStart P e) as [err|pretty].
  { exists []. simpl. rewrite app_nil_r. split; [reflexivity|].
    split; [lia|]. intros r Hr. inversion Hr. }
  cbv zeta. exists [mkRequest e (label th) pretty (slack (length (outbox w)))].
  split; [|split; [simpl; lia|]].
  - destruct (slack (length (outbox w))); [|reflexivity].
    destruct (addReminded_run th i (post (mkRequest e (label th) pretty true) w))
      as (w' & -> & Ho & _). exact Ho.
  - intros r Hr. apply list_elem_of_singleton in Hr as ->. now split.
Qed.

Lemma eventYMD_prettyStart (e : Event.t) (st : Start.t) (ymd : jsstring) :
  Event.start e = Some st -> eventYMD P st = inr ymd ->
  exists pretty, prettyStart P e = inr pretty.
Proof.
  intros Hs. unfold eventYMD, prettyStart, ymdInTZ. rewrite Hs.
  destruct (allDayDate st) as [d|]; [intros _; now exists d|].
  destruct (newDate P (Start.dateTime st)) as [t|]; [|discriminate].
  intros _. eexists. reflexivity.
Qed.

Lemma forOf_app (body : Event.t -> M unit) (pre rest : list Event.t) (w : World) :
  forOf (pre ++ rest) body w =
    match forOf pre body w with
    | (inl err, w1) => (inl err, w1)
    | (inr _, w1) => forOf rest body w1
    end.
Proof.
  revert w. induction pre as [|e pre IH]; intros w; simpl; [reflexivity|].
  unfold mbind, M_bind. destruct (body e w) as [[err|[]] w1]; [reflexivity|].
  apply IH.
Qed.


(** C3, all-day dates are classified verbatim: for an all-day start with
    date D the date the loop compares is D itself, whatever the platform's
    zones are, and the two guarded blocks are run with D. *)
Theorem allDay_date_verbatim (st : Start.t) (D : jsstring) :
  Start.date st = Some D -> nonEmpty D = true ->
  truthy (Start.dateTime st) = false ->
  eventYMD P st = inr D
  /\ forall (tomorrowYMD weekYMD : jsstring) (e : Event.t) (i : jsstring)
       (w : World),
       Event.id e = Some i -> nonEmpty i = true -> Event.start e = Some st ->
       eventBody P slack tomorrowYMD weekYMD e w
       = (remindBlock P slack OneDay tomorrowYMD D e i ;;
          remindBlock P slack OneWeek weekYMD D e i) w.
Proof.
  intros Hd Hne Ht.
  assert (Hy : eventYMD P st = inr D).
  { unfold eventYMD, allDayDate. now rewrite Hd, Hne, Ht. }
  split; [exact Hy|].
  intros tomorrowYMD weekYMD e i w Hid Hi Hst.
  rewrite eventBody_blocks, Hid, Hst, Hi. cbn [negb].
  assert (Htr : truthy (orElse (Start.dateTime st) (Start.date st)) = true).
  { unfold orElse. rewrite Ht, Hd. exact Hne. }
  rewrite Htr. cbn [negb].
  unfold mbind at 1. unfold M_bind at 1. unfold liftE. now rewrite Hy.
Qed.

(** C5, a failed fetch is contained: when [getUpcomingEvents] throws, the
    cycle completes normally, posts nothing and leaves both reminded sets as
    they were. *)
Theorem fetch_failure_contained (c : Cycle) (w w0 : World) (err : Error) :
  getUpcomingEvents c (9 * 24 * 60) w = (inl err, w0) ->
  checkCalendarAndNotify P slack c w = (inr tt, w0)
  /\ outbox w0 = outbox w
  /\ remindedDay w0 = remindedDay w
  /\ remindedWeek w0 = remindedWeek w.
Proof.
  intros H. rewrite checkCalendarAndNotify_unfold, H.
  split; [reflexivity|].
  destruct (getUpcomingEvents_run c (9 * 24 * 60) w)
    as (res & w0' & E & Ho & Hd & Hw & _).
  rewrite H in E. injection E as _ <-. auto.
Qed.

Lemma eventBody_malformed (tomorrowYMD weekYMD : jsstring) (e : Event.t)
    (w : World) :
  malformed e -> eventBody P slack tomorrowYMD weekYMD e w = (inr tt, w).
Proof.
  unfold malformed, eventBody.
  intros [H|[H|(st & Hs & Hd & Ht)]].
  - destruct (Event.id e) as [i|]; [|reflexivity].
    simpl in H. rewrite H. now destruct (Event.start e).
  - rewrite H. now destruct (Event.id e).
  - rewrite Hs. destruct (Event.id e) as [i|]; [|reflexivity].
    destruct (nonEmpty i); [|reflexivity]. cbn [negb].
    unfold orElse. rewrite Ht, Hd. reflexivity.
Qed.

(** C6, malformed events are skipped: for an event without id, without
    start, or whose start has neither date nor dateTime, the loop body does
    nothing (no request, no change of state, no exception), and the batch
    behaves as if the event were not in it. *)
Theorem malformed_event_skipped (tomorrowYMD weekYMD : jsstring) (e : Event.t) :
  malformed e ->
  (forall w, eventBody P slack tomorrowYMD weekYMD e w = (inr tt, w))
  /\ (forall pre post w,
        forOf (pre ++ e :: post) (eventBody P slack tomorrowYMD weekYMD) w
        = forOf (pre ++ post) (eventBody P slack tomorrowYMD weekYMD) w).
Proof.
  intros Hm. split; [intros w; now apply eventBody_malformed|].
  intros pre post w. rewrite !forOf_app.
  destruct (forOf pre _ w) as [[err|[]] w1]; [reflexivity|].
  simpl. unfold mbind, M_bind. now rewrite eventBody_malformed.
Qed.

(** C8, payload shape: [sendSlackReminder] posts one request whose text is
    the alarm-clock header naming the label, the bolded title (or "Untitled
    event"), the calendar date line, the description paragraph when the
    cleaned description is not empty, and the link line when htmlLink is
    present, in that order.  The date line shows the bare date of an all-day
    event and the zone-localized date and time of a timed one.  Every
    request posted over a chain of cycles has that shape and one of the two
    threshold labels. *)
Theorem payload_shape (e : Event.t) (whenLabel : jsstring) (w : World) :
  let posts pretty :=
    outbox (sendSlackReminder P slack e whenLabel w).2 =
      outbox w ++ [{| req_event := e; req_label := whenLabel;
                      req_text := renderedText e whenLabel pretty;
                      req_delivered := slack (length (outbox w)) |}] in
  (forall st D,
     Event.start e = Some st -> Start.date st = Some D ->
     nonEmpty D = true -> truthy (Start.dateTime st) = false ->
     posts D)
  /\ (forall st s t,
        Event.start e = Some st ->
        truthy (Start.date st) = false \/ nonEmpty s = true ->
        Start.dateTime st = Some s -> Date_parse P s = Some t ->
        posts (formatMediumShort P TIMEZONE t))
  /\ (forall cs w0, exists new,
        outbox (runCycles P slack cs w0).2 = outbox w0 ++ new
        /\ forall r, r ∈ new ->
             (exists th, req_label r = label th) /\ Shaped P r).
Proof.
  cbv zeta. split; [|split].
  - intros st D Hst HD Hne Hdt.
    rewrite sendSlackReminder_run. unfold prettyStart, allDayDate.
    rewrite Hst, HD, Hne, Hdt.
    unfold renderedText. rewrite <- reminderText_parts. reflexivity.
  - intros st s t Hst Hnot Hs Ht.
    rewrite sendSlackReminder_run. unfold prettyStart, allDayDate, newDate.
    rewrite Hst, Hs, Ht.
    assert (Hall : match Start.date st with
                   | Some d => if nonEmpty d && negb (truthy (Some s))
                               then Some d else None
                   | None => None
                   end = None).
    { destruct (Start.date st) as [D|]; [|reflexivity].
      destruct Hnot as [Hd|Hn].
      - simpl in Hd. now rewrite Hd.
      - simpl truthy. rewrite Hn. now rewrite andb_false_r. }
    rewrite Hall.
    unfold renderedText. rewrite <- reminderText_parts. reflexivity.
  - intros cs w0.
    destruct (Grow_runCycles P slack cs w0) as (_ & new & Ho & _ & _ & Hr).
    exists new. split; [exact Ho|]. intros r Hin.
    destruct (Hr r Hin) as (i & th & k & [_ Hl] & _ & _ & Hs & _).
    split; [now exists th | exact Hs].
Qed.

Lemma eventBody_requests (tomorrowYMD weekYMD : jsstring) (e : Event.t)
    (w : World) :
  exists new,
    outbox (eventBody P slack tomorrowYMD weekYMD e w).2 = outbox w ++ new
    /\ forall r, r ∈ new -> req_event r = e.
Proof.
  assert (Hnil : exists new, outbox w = outbox w ++ new
                   /\ forall r : Request, r ∈ new -> req_event r = e).
  { exists []. rewrite app_nil_r. split; [reflexivity|].
    intros r Hr. inversion Hr. }
  rewrite eventBody_blocks.
  destruct (Event.id e) as [i|]; [|exact Hnil].
  destruct (Event.start e) as [st|]; [|exact Hnil].
  destruct (negb (nonEmpty i)); [exact Hnil|].
  destruct (negb (truthy (orElse (Start.dateTime st) (Start.date st))));
    [exact Hnil|].
  unfold mbind at 1. unfold M_bind at 1. unfold liftE.
  destruct (eventYMD P st) as [err|ymd]; [exact Hnil|].
  unfold mbind, M_bind.
  destruct (remindBlock_outbox OneDay tomorrowYMD ymd e i w) as (n1 & Ho1 & _ & H1).
  destruct (remindBlock P slack OneDay tomorrowYMD ymd e i w) as [[err|[]] w1];
    simpl in Ho1.
  - exists n1. split; [exact Ho1|]. intros r Hr. now apply H1.
  - destruct (remindBlock_outbox OneWeek weekYMD ymd e i w1) as (n2 & Ho2 & _ & H2).
    exists (n1 ++ n2). rewrite Ho2, Ho1, app_assoc. split; [reflexivity|].
    intros r Hr. apply elem_of_app in Hr as [Hr|Hr]; [now apply H1|now apply H2].
Qed.

(** C9, a failed delivery aborts the rest of the batch: when the body of
    the event at some position throws the Slack error, the cycle still
    completes normally, its final state is the state at the failure (no
    later event has posted or marked anything), and that state holds an
    undelivered request of this event whose pair is not in the reminded
    set. *)
Theorem delivery_failure_aborts_batch (c : Cycle) (w w0 w1 w2 : World)
    (pre post : list Event.t) (e : Event.t) :
  let body := eventBody P slack (windowYMD P (clock c) 1)
                                (windowYMD P (clock c) 7) in
  getUpcomingEvents c (9 * 24 * 60) w = (inr (pre ++ e :: post), w0) ->
  forOf pre body w0 = (inr tt, w1) ->
  body e w1 = (inl SlackError, w2) ->
  checkCalendarAndNotify P slack c w = (inr tt, w2)
  /\ forOf (pre ++ e :: post) body w0 = (inl SlackError, w2)
  /\ exists new r i th,
       outbox w2 = outbox w1 ++ new /\ r ∈ new
       /\ req_event r = e /\ req_delivered r = false
       /\ pairOf r i th /\ i ∉ reminded th w2.
Proof.
  intros body Hf Hpre He.
  assert (Hall : forOf (pre ++ e :: post) body w0 = (inl SlackError, w2)).
  { rewrite forOf_app, Hpre. simpl. unfold mbind, M_bind. now rewrite He. }
  split; [|split; [exact Hall|]].
  - rewrite checkCalendarAndNotify_unfold, Hf. fold body. now rewrite Hall.
  - pose proof (Inv_eventBody P slack (windowYMD P (clock c) 1)
                  (windowYMD P (clock c) 7) e w1) as (new & G & F & E).
    fold body in G, F, E. rewrite He in G, F, E. simpl in G, F, E.
    destruct (E eq_refl) as (r & Hr & Hd).
    destruct G as (Ho & _ & _ & Hreq).
    destruct (Hreq r Hr) as (i & th & _ & Hp & _).
    destruct (eventBody_requests (windowYMD P (clock c) 1)
                (windowYMD P (clock c) 7) e w1) as (new' & Ho' & Hev).
    fold body in Ho'. rewrite He in Ho'. simpl in Ho'.
    assert (new' = new) by (rewrite Ho in Ho'; now apply app_inv_head in Ho').
    subst new'. exists new, r, i, th.
    split; [exact Ho|]. split; [exact Hr|]. split; [now apply Hev|].
    split; [exact Hd|]. split; [exact Hp|].
    now apply (proj2 (F r Hr Hd)).
Qed.

End Claims.

(** ** The window dates *)

Lemma Day_apart (a b : Z) : a + msPerDay <= b -> Day a <> Day b.
Proof.
  unfold Day, msPerDay. intros H E.
  pose proof (Z.div_mod a 86400000 ltac:(lia)).
  pose proof (Z.div_mod b 86400000 ltac:(lia)).
  pose proof (Z.mod_pos_bound a 86400000 ltac:(lia)).
  pose proof (Z.mod_pos_bound b 86400000 ltac:(lia)).
  lia.
Qed.

Lemma windowYMD_shift (P : Platform) (now days : Z) :
  windowYMD P now days
  = formatYMD (dayInTZ P TIMEZONE
                 (UTC P (LocalTime P now + days * msPerDay))).
Proof. unfold windowYMD. now rewrite addDays_shift. Qed.

Lemma window_dates_differ (P : Platform) (now : Z) :
  offsetsWithinADay P -> windowYMD P now 1 <> windowYMD P now 7.
Proof.
  intros [Hz Hu]. rewrite !windowYMD_shift. intros E.
  apply formatYMD_inj in E. revert E. unfold dayInTZ. apply Day_apart.
  set (l := LocalTime P now).
  pose proof (Hu (l + 1 * msPerDay)). pose proof (Hu (l + 7 * msPerDay)).
  pose proof (Hz (UTC P (l + 1 * msPerDay))).
  pose proof (Hz (UTC P (l + 7 * msPerDay))).
  unfold msPerDay in *. lia.
Qed.

(** Where host and zone keep fixed offsets, the window dates are the
    calendar successors the cycle means them to be. *)
Lemma window_dates_fixed_offsets (P : Platform) (h k now days : Z) :
  (forall t, LocalTime P t = t + h) -> (forall l, UTC P l = l - h) ->
  (forall t, zoneOffset P TIMEZONE t = k) ->
  windowYMD P now days = formatYMD (dayInTZ P TIMEZONE now + days).
Proof.
  intros Hl Hu Hz. rewrite windowYMD_shift. f_equal.
  unfold dayInTZ, Day. rewrite Hu, Hl, !Hz.
  replace (now + h + days * msPerDay - h + k)
    with (now + k + days * msPerDay) by lia.
  apply Z.div_add. unfold msPerDay. lia.
Qed.

Lemma hostUTC_offsets : offsetsWithinADay hostUTC.
Proof.
  split; simpl.
  - intros t. unfold pacific2024.
    destruct (_ && _); unfold hour, msPerDay; lia.
  - intros l. unfold msPerDay. lia.
Qed.

(** C4 fails on the code: with the host in UTC, at 00:30 Pacific time on
    the day the clocks go back (2024-11-03T07:30Z) the date computed for
    tomorrow is today's date; and at 00:30 on 2024-10-28 the date computed
    for one week ahead is six calendar days ahead. *)
Lemma window_dates_fall_back :
  ymdInTZ hostUTC (Some (utcInstant 2024 11 3 7 30)) TIMEZONE
    = inr (lit "2024-11-03")
  /\ ymdInTZ hostUTC (addDays hostUTC (Some (utcInstant 2024 11 3 7 30)) 1)
       TIMEZONE = inr (lit "2024-11-03")
  /\ ymdInTZ hostUTC (Some (utcInstant 2024 10 28 7 30)) TIMEZONE
       = inr (lit "2024-10-28")
  /\ ymdInTZ hostUTC (addDays hostUTC (Some (utcInstant 2024 10 28 7 30)) 7)
       TIMEZONE = inr (lit "2024-11-03").
Proof. repeat split; vm_compute; reflexivity. Qed.

(** C7, the thresholds exclude each other within a cycle: with UTC offsets
    of at most a day, the date computed for tomorrow differs from the one
    computed for one week ahead, so the loop body, which runs both guarded
    blocks, posts at most one request for an event. *)
Theorem thresholds_exclusive (P : Platform) (slack : nat -> bool) (now : Z) :
  offsetsWithinADay P ->
  ymdInTZ P (addDays P (Some now) 1) TIMEZONE = inr (windowYMD P now 1)
  /\ ymdInTZ P (addDays P (Some now) 7) TIMEZONE = inr (windowYMD P now 7)
  /\ windowYMD P now 1 <> windowYMD P now 7
  /\ forall (e : Event.t) (w : World),
       exists new,
         outbox (eventBody P slack (windowYMD P now 1) (windowYMD P now 7)
                   e w).2 = outbox w ++ new
         /\ (length new <= 1)%nat.
Proof.
  intros Hoff. split; [reflexivity|]. split; [reflexivity|].
  pose proof (window_dates_differ P now Hoff) as Hdiff.
  split; [exact Hdiff|]. intros e w.
  assert (Hnil : exists new : list Request,
             outbox w = outbox w ++ new /\ (length new <= 1)%nat).
  { exists []. rewrite app_nil_r. simpl. split; [reflexivity|lia]. }
  rewrite eventBody_blocks.
  destruct (Event.id e) as [i|]; [|exact Hnil].
  destruct (Event.start e) as [st|]; [|exact Hnil].
  destruct (negb (nonEmpty i)); [exact Hnil|].
  destruct (negb (truthy (orElse (Start.dateTime st) (Start.date st))));
    [exact Hnil|].
  unfold mbind at 1. unfold M_bind at 1. unfold liftE.
  destruct (eventYMD P st) as [err|ymd]; [exact Hnil|].
  unfold mbind, M_bind.
  destruct (decide (ymd = windowYMD P now 1)) as [Heq|Hne].
  - destruct (remindBlock_outbox P slack OneDay (windowYMD P now 1) ymd e i w)
      as (new & Ho & Hlen & _).
    destruct (remindBlock P slack OneDay (windowYMD P now 1) ymd e i w)
      as [[err|[]] w1]; simpl in Ho.
    + exists new. now split.
    + rewrite remindBlock_skip by (left; congruence).
      exists new. now split.
  - rewrite remindBlock_skip by (left; exact Hne).
    destruct (remindBlock_outbox P slack OneWeek (windowYMD P now 7) ymd e i w)
      as (new & Ho & Hlen & _).
    exists new. now split.
Qed.

Lemma thresholds_exclusive_witness :
  windowYMD hostUTC (utcInstant 2024 6 9 19 0) 1
  <> windowYMD hostUTC (utcInstant 2024 6 9 19 0) 7.
Proof.
  exact (proj1 (proj2 (proj2
    (thresholds_exclusive hostUTC alwaysDelivers (utcInstant 2024 6 9 19 0)
       hostUTC_offsets)))).
Defined.

(** ** The theorems at concrete inputs *)

(** The scenario of the specification: all-day event "a" on 2024-06-10,
    now on 2024-06-09.  The first cycle posts one "1 day" request for "a",
    the second cycle posts nothing more. *)
Example scenario_june9 :
  map req_label
    (outbox (runCycles hostUTC alwaysDelivers [june9] processStart).2)
    = [lit "1 day"]
  /\ outbox (runCycles hostUTC alwaysDelivers [june9; june9] processStart).2
     = outbox (runCycles hostUTC alwaysDelivers [june9] processStart).2.
Proof. split; vm_compute; reflexivity. Qed.

(** From 2024-01-01 00:00 Pacific time the windows are 2024-01-02 and
    2024-01-08. *)
Example windows_january :
  windowYMD hostUTC (utcInstant 2024 1 1 8 0) 1 = lit "2024-01-02"
  /\ windowYMD hostUTC (utcInstant 2024 1 1 8 0) 7 = lit "2024-01-08".
Proof. split; vm_compute; reflexivity. Qed.

(** With the host itself on Pacific time the day the clocks go back is
    handled: tomorrow of 2024-11-03 00:30 PDT is 2024-11-04. *)
Example window_dates_host_pacific :
  windowYMD hostPacific (utcInstant 2024 11 3 7 30) 1 = lit "2024-11-04".
Proof. vm_compute. reflexivity. Qed.

(** The text posted for a timed event with every display field. *)
Example reminderText_full :
  reminderText
    {| Event.id := Some (lit "x");
       Event.start := Some {| Start.date := None;
                              Start.dateTime := Some (lit "2024-06-10T09:00:00-07:00") |};
       Event.summary := Some (lit "Standup");
       Event.description := Some (lit " <p>Bring <b>notes</b></p> ");
       Event.htmlLink := Some (lit "https://cal/x") |}
    (lit "1 day") (lit "Jun 10, 2024, 9:00 AM")
  = ALARM_CLOCK ++ lit " *Upcoming event in 1 day*" ++ NL
    ++ lit "*Standup*" ++ NL
    ++ CALENDAR ++ lit " Jun 10, 2024, 9:00 AM" ++ NL
    ++ NL ++ MEMO ++ lit " Bring notes" ++ NL
    ++ LINK ++ lit " <https://cal/x|Open in Google Calendar>".
Proof. vm_compute. reflexivity. Qed.


Lemma allDay_date_verbatim_witness :
  eventYMD hostPacific
    {| Start.date := Some (lit "2024-06-10"); Start.dateTime := None |}
  = inr (lit "2024-06-10").
Proof.
  refine (proj1 (allDay_date_verbatim hostPacific alwaysDelivers
            {| Start.date := Some (lit "2024-06-10"); Start.dateTime := None |}
            (lit "2024-06-10") _ _ _)); reflexivity.
Defined.

Lemma fetch_failure_contained_witness :
  checkCalendarAndNotify hostUTC alwaysDelivers fetchFails processStart
  = (inr tt, (getUpcomingEvents fetchFails (9 * 24 * 60) processStart).2).
Proof.
  refine (proj1 (fetch_failure_contained hostUTC alwaysDelivers fetchFails
            processStart _ FetchError _)).
  reflexivity.
Defined.

Lemma malformed_event_skipped_witness :
  eventBody hostUTC alwaysDelivers (lit "2024-06-10") (lit "2024-06-16")
    evNoStart processStart = (inr tt, processStart).
Proof.
  refine (proj1 (malformed_event_skipped hostUTC alwaysDelivers
            (lit "2024-06-10") (lit "2024-06-16") evNoStart _) processStart).
  right. left. reflexivity.
Defined.

Lemma delivery_failure_aborts_batch_witness :
  checkCalendarAndNotify hostUTC firstPostFails june9Two processStart
  = (inr tt,
     (eventBody hostUTC firstPostFails
        (windowYMD hostUTC (clock june9Two) 1)
        (windowYMD hostUTC (clock june9Two) 7) evA
        (getUpcomingEvents june9Two (9 * 24 * 60) processStart).2).2).
Proof.
  refine (proj1 (delivery_failure_aborts_batch hostUTC firstPostFails
            june9Two processStart _ _ _ [] [evNoStart] evA _ _ _)).
  - reflexivity.
  - reflexivity.
  - vm_compute. reflexivity.
Defined.

Lemma payload_shape_witness :
  outbox (sendSlackReminder hostUTCFormatting alwaysDelivers evStandup
            (lit "1 day") processStart).2
  = [{| req_event := evStandup; req_label := lit "1 day";
        req_text :=
          ALARM_CLOCK ++ lit " *Upcoming event in 1 day*" ++ NL
          ++ lit "*Standup*" ++ NL
          ++ CALENDAR ++ lit " Jun 10, 2024, 9:00 AM" ++ NL
          ++ NL ++ MEMO ++ lit " Bring notes" ++ NL
          ++ LINK ++ lit " <https://cal/x|Open in Google Calendar>";
        req_delivered := true |}]
  /\ outbox (sendSlackReminder hostUTC alwaysDelivers evA (lit "1 week")
               processStart).2
     = [{| req_event := evA; req_label := lit "1 week";
           req_text :=
             ALARM_CLOCK ++ lit " *Upcoming event in 1 week*" ++ NL
             ++ lit "*Untitled event*" ++ NL
             ++ CALENDAR ++ lit " 2024-06-10" ++ NL;
           req_delivered := true |}].
Proof.
  split.
  - destruct (payload_shape hostUTCFormatting alwaysDelivers evStandup
                (lit "1 day") processStart) as (_ & H & _).
    rewrite (H {| Start.date := None;
                  Start.dateTime := Some (lit "2024-06-10T09:00:00-07:00") |}
               (lit "2024-06-10T09:00:00-07:00") (utcInstant 2024 6 10 16 0)
               eq_refl (or_introl eq_refl) eq_refl eq_refl).
    vm_compute. reflexivity.
  - destruct (payload_shape hostUTC alwaysDelivers evA (lit "1 week")
                processStart) as (H & _).
    rewrite (H stAllDay (lit "2024-06-10") eq_refl eq_refl eq_refl eq_refl).
    vm_compute. reflexivity.
Defined.

(** * Further properties of the code *)

Section MoreFacts.

Variable P : Platform.
Variable slack : nat -> bool.

(** ** What one guarded block can do *)

Lemma remindBlock_cases (th : Threshold) (target ymd : jsstring) (e : Event.t)
    (i : jsstring) (w : World) :
  remindBlock P slack th target ymd e i w = (inr tt, w)
  \/ (exists err, err <> SlackError
        /\ remindBlock P slack th target ymd e i w = (inl err, w))
  \/ (exists pretty w',
        prettyStart P e = inr pretty /\ ymd = target /\ (i ∉ reminded th w)
        /\ remindBlock P slack th target ymd e i w
           = (if slack (length (outbox w)) then inr tt else inl SlackError, w')
        /\ outbox w'
           = outbox w ++ [mkRequest e (label th) pretty
                            (slack (length (outbox w)))]
        /\ googleAuthed w' = googleAuthed w).
Proof.
  unfold remindBlock, mbind, M_bind, getWorld.
  destruct (bool_decide (ymd = target)) eqn:Hy; [|now left].
  destruct (bool_decide (i ∈ reminded th w)) eqn:Hi; [now left|].
  apply bool_decide_eq_true in Hy. apply bool_decide_eq_false in Hi.
  cbn [andb negb]. rewrite (sendSlackReminder_run P slack).
  destruct (prettyStart P e) as [err|pretty] eqn:Hp.
  - right. left. exists err. split; [|reflexivity].
    intros ->. now apply (prettyStart_not_slack P e).
  - right. right. cbv zeta.
    destruct (slack (length (outbox w))) eqn:Hk.
    + destruct (addReminded_run th i (post (mkRequest e (label th) pretty true) w))
        as (w' & Hr & Ho & _).
      exists pretty, w'. rewrite Hr.
      repeat (split; [first [reflexivity | assumption]|]).
      destruct th; simpl in Hr; injection Hr as <-; reflexivity.
    + exists pretty, (post (mkRequest e (label th) pretty false) w).
      repeat (split; [first [reflexivity | assumption]|]). reflexivity.
Qed.

(** ** No post follows a failed post within a cycle *)

Lemma onlyLastMayFail_app (n1 n2 : list Request) :
  Forall (fun r => req_delivered r = true) n1 ->
  onlyLastMayFail n2 = true -> onlyLastMayFail (n1 ++ n2) = true.
Proof.
  intros H1 H2. induction H1 as [|r n1 Hr _ IH]; [exact H2|].
  simpl. destruct (n1 ++ n2); [reflexivity|]. now rewrite Hr, IH.
Qed.

Lemma NoPost_same (w : World) (res : Error + unit) :
  NoPostAfterFailure w res w.
Proof.
  exists []. rewrite app_nil_r. split; [reflexivity|].
  split; [reflexivity|]. intros _. constructor.
Qed.

Lemma NoPost_seq (m1 m2 : M unit) (w : World) :
  NoPostAfterFailure w (m1 w).1 (m1 w).2 ->
  (forall w1, NoPostAfterFailure w1 (m2 w1).1 (m2 w1).2) ->
  NoPostAfterFailure w ((m1 ;; m2) w).1 ((m1 ;; m2) w).2.
Proof.
  intros H1 H2. unfold mbind, M_bind.
  destruct (m1 w) as [[err|[]] w1]; simpl in *; [exact H1|].
  specialize (H2 w1). destruct (m2 w1) as [res w2]; simpl in *.
  destruct H1 as (n1 & Ho1 & _ & F1), H2 as (n2 & Ho2 & L2 & F2).
  exists (n1 ++ n2). split; [now rewrite Ho2, Ho1, app_assoc|].
  assert (Hd : Forall (fun r => req_delivered r = true) n1)
    by (apply F1; discriminate).
  split; [now apply onlyLastMayFail_app|].
  intros Hres. apply Forall_app. split; [exact Hd | now apply F2].
Qed.

Lemma NoPost_remindBlock (th : Threshold) (target ymd : jsstring)
    (e : Event.t) (i : jsstring) (w : World) :
  NoPostAfterFailure w (remindBlock P slack th target ymd e i w).1
                       (remindBlock P slack th target ymd e i w).2.
Proof.
  destruct (remindBlock_cases th target ymd e i w)
    as [-> | [(err & _ & ->) | (pretty & w' & _ & _ & _ & -> & Ho & _)]];
    simpl; try apply NoPost_same.
  eexists. split; [exact Ho|]. split; [reflexivity|].
  destruct (slack (length (outbox w))); [|intros H; now contradiction H].
  intros _. repeat constructor.
Qed.

Lemma NoPost_eventBody (tomorrowYMD weekYMD : jsstring) (e : Event.t)
    (w : World) :
  NoPostAfterFailure w (eventBody P slack tomorrowYMD weekYMD e w).1
                       (eventBody P slack tomorrowYMD weekYMD e w).2.
Proof.
  rewrite (eventBody_blocks P slack).
  destruct (Event.id e) as [i|]; [|apply NoPost_same].
  destruct (Event.start e) as [st|]; [|apply NoPost_same].
  destruct (negb (nonEmpty i)); [apply NoPost_same|].
  destruct (negb (truthy (orElse (Start.dateTime st) (Start.date st))));
    [apply NoPost_same|].
  unfold mbind at 1. unfold M_bind at 1. unfold liftE.
  destruct (eventYMD P st) as [err|ymd]; [apply NoPost_same|].
  apply NoPost_seq; [|intros w1]; apply NoPost_remindBlock.
Qed.

Lemma NoPost_forOf (tomorrowYMD weekYMD : jsstring) (events : list Event.t)
    (w : World) :
  NoPostAfterFailure w
    (forOf events (eventBody P slack tomorrowYMD weekYMD) w).1
    (forOf events (eventBody P slack tomorrowYMD weekYMD) w).2.
Proof.
  revert w. induction events as [|e rest IH]; intros w; simpl.
  - apply NoPost_same.
  - apply NoPost_seq; [apply NoPost_eventBody | exact IH].
Qed.

(** X1: within one run of [checkCalendarAndNotify] nothing is posted after
    a post that Slack rejected: of the requests the run makes, every one
    but the last was delivered. *)
Theorem no_post_after_failure (c : Cycle) (w : World) :
  exists new,
    outbox (checkCalendarAndNotify P slack c w).2 = outbox w ++ new
    /\ onlyLastMayFail new = true.
Proof.
  rewrite (checkCalendarAndNotify_unfold P slack).
  destruct (getUpcomingEvents_run c (9 * 24 * 60) w)
    as (res & w0 & -> & Ho & _).
  destruct res as [err|events]; simpl.
  - exists []. now rewrite app_nil_r.
  - destruct (NoPost_forOf (windowYMD P (clock c) 1) (windowYMD P (clock c) 7)
                events w0) as (new & Hn & Hl & _).
    exists new. split; [now rewrite Hn, Ho | exact Hl].
Qed.

(** ** The chain of cycles *)

(** X2: a run of [checkCalendarAndNotify] only appends to the outbox and
    only adds to the two reminded sets, whatever the calendar, the platform
    and Slack do; so does any chain of runs. *)
Theorem runs_only_add (c : Cycle) (cs : list Cycle) (w : World) :
  (exists new,
     outbox (checkCalendarAndNotify P slack c w).2 = outbox w ++ new
     /\ remindedDay w ⊆ remindedDay (checkCalendarAndNotify P slack c w).2
     /\ remindedWeek w ⊆ remindedWeek (checkCalendarAndNotify P slack c w).2)
  /\ exists new,
       outbox (runCycles P slack cs w).2 = outbox w ++ new
       /\ remindedDay w ⊆ remindedDay (runCycles P slack cs w).2
       /\ remindedWeek w ⊆ remindedWeek (runCycles P slack cs w).2.
Proof.
  split.
  - destruct (Inv_cycle P slack c w) as (_ & res & new & (Ho & Hs & _) & _).
    exists new. split; [exact Ho|].
    split; [apply (Hs OneDay) | apply (Hs OneWeek)].
  - destruct (Grow_runCycles P slack cs w) as (_ & new & Ho & Hs & _).
    exists new. split; [exact Ho|].
    split; [apply (Hs OneDay) | apply (Hs OneWeek)].
Qed.

Lemma Grow_reminded_iff (w w' : World) (new : list Request)
    (i : jsstring) (th : Threshold) :
  Grow P slack w new w' ->
  i ∈ reminded th w' <->
  i ∈ reminded th w
  \/ exists r, r ∈ new /\ pairOf r i th /\ req_delivered r = true.
Proof.
  intros (_ & Hs & Hc & _). specialize (Hc i th). split.
  - intros Hin.
    destruct (decide (i ∈ reminded th w)) as [Hold|Hnew]; [now left|right].
    rewrite (bool_decide_eq_true_2 _ Hin) in Hc.
    rewrite (bool_decide_eq_false_2 _ Hnew) in Hc. simpl in Hc.
    destruct (deliveredFor i th new) as [|r l] eqn:E; [simpl in Hc; lia|].
    assert (Hr : In r (deliveredFor i th new)) by (rewrite E; now left).
    apply List.filter_In in Hr as [Hr Hb].
    apply andb_prop in Hb as [Hb1 Hb2].
    exists r. split; [now apply list_elem_of_In|].
    split; [now apply isFor_true | exact Hb2].
  - intros [Hold|(r & Hr & Hp & Hd)]; [now apply (Hs th)|].
    assert (Hin : In r (deliveredFor i th new)).
    { apply List.filter_In. split; [now apply list_elem_of_In|].
      rewrite Hd, andb_true_r. now apply isFor_true. }
    destruct (deliveredFor i th new) as [|r' l]; [inversion Hin|].
    simpl in Hc.
    destruct (bool_decide (i ∈ reminded th w')) eqn:E;
      [now apply bool_decide_eq_true in E | simpl in Hc; lia].
Qed.

(** X3: after any chain of cycles of a fresh process, an event id is in
    [remindedDay] ([remindedWeek]) exactly when the outbox holds a delivered
    "1 day" ("1 week") request of an event with that id. *)
Theorem reminded_iff_delivered (cs : list Cycle) (i : jsstring)
    (th : Threshold) :
  i ∈ reminded th (runCycles P slack cs processStart).2 <->
  exists r, r ∈ outbox (runCycles P slack cs processStart).2
            /\ pairOf r i th /\ req_delivered r = true.
Proof.
  destruct (Grow_runCycles P slack cs processStart) as (_ & new & G).
  rewrite (Grow_reminded_iff _ _ _ i th G).
  destruct G as (Ho & _). simpl in Ho. rewrite Ho. split.
  - intros [H|H]; [|exact H].
    destruct th; simpl in H; now apply not_elem_of_empty in H.
  - intros H. now right.
Qed.

(** ** An event whose dateTime does not parse *)

Lemma allDayDate_timed (st : Start.t) :
  truthy (Start.dateTime st) = true -> allDayDate st = None.
Proof.
  intros H. unfold allDayDate. rewrite H.
  destruct (Start.date st); [|reflexivity]. simpl. now rewrite andb_false_r.
Qed.

Lemma eventBody_unparseable (tomorrowYMD weekYMD : jsstring) (e : Event.t)
    (w : World) :
  unparseableTimed P e ->
  eventBody P slack tomorrowYMD weekYMD e w = (inl RangeError, w).
Proof.
  intros (i & st & s & Hid & Hne & Hst & Hdt & Hs & Hp).
  assert (Ht : truthy (Start.dateTime st) = true) by now rewrite Hdt.
  unfold eventBody. rewrite Hid, Hst, Hne. cbn [negb].
  unfold orElse. rewrite Ht, Ht. cbn [negb].
  unfold mbind at 1. unfold M_bind at 1. unfold liftE.
  unfold eventYMD. rewrite (allDayDate_timed st Ht).
  unfold newDate. rewrite Hdt, Hp. reflexivity.
Qed.

(** X4: a timed event whose [dateTime] does not parse ends the cycle where
    it stands: [ymdInTZ] throws, the catch swallows the error, and neither
    that event nor any event after it in the batch is examined.  The cycle
    ends in the state reached after the events before it. *)
Theorem unparseable_event_ends_cycle (c : Cycle) (w w0 : World)
    (pre post : list Event.t) (e : Event.t) :
  unparseableTimed P e ->
  getUpcomingEvents c (9 * 24 * 60) w = (inr (pre ++ e :: post), w0) ->
  checkCalendarAndNotify P slack c w
  = (inr tt,
     (forOf pre (eventBody P slack (windowYMD P (clock c) 1)
                                   (windowYMD P (clock c) 7)) w0).2).
Proof.
  intros Hbad Hf. rewrite (checkCalendarAndNotify_unfold P slack), Hf.
  rewrite forOf_app.
  destruct (forOf pre _ w0) as [[err|[]] w1]; [reflexivity|].
  simpl. unfold mbind, M_bind. now rewrite eventBody_unparseable.
Qed.

(** ** sendSlackReminder on its own *)

(** X5: [sendSlackReminder] either throws before posting (TypeError when the
    event has no start, RangeError when a timed start does not parse) and
    then changes nothing, or posts exactly one request for its event and
    label and throws exactly when Slack rejects it; it never touches the
    reminded sets. *)
Theorem sendSlackReminder_effects (e : Event.t) (whenLabel : jsstring)
    (w : World) :
  remindedDay (sendSlackReminder P slack e whenLabel w).2 = remindedDay w
  /\ remindedWeek (sendSlackReminder P slack e whenLabel w).2 = remindedWeek w
  /\ ((Event.start e = None
       /\ sendSlackReminder P slack e whenLabel w = (inl TypeError, w))
      \/ (exists st, Event.start e = Some st /\ allDayDate st = None
            /\ newDate P (Start.dateTime st) = None
            /\ sendSlackReminder P slack e whenLabel w = (inl RangeError, w))
      \/ (exists r,
            outbox (sendSlackReminder P slack e whenLabel w).2
              = outbox w ++ [r]
            /\ req_event r = e /\ req_label r = whenLabel
            /\ req_delivered r = slack (length (outbox w))
            /\ (sendSlackReminder P slack e whenLabel w).1
               = if req_delivered r then inr tt else inl SlackError)).
Proof.
  rewrite (sendSlackReminder_run P slack). unfold prettyStart.
  destruct (Event.start e) as [st|]; [|simpl; auto].
  destruct (allDayDate st) as [d|] eqn:Ha.
  - cbv zeta. simpl. split; [reflexivity|]. split; [reflexivity|].
    right. right. eexists. split; [reflexivity|]. simpl. auto.
  - destruct (newDate P (Start.dateTime st)) as [t|] eqn:Hn.
    + cbv zeta. simpl. split; [reflexivity|]. split; [reflexivity|].
      right. right. eexists. split; [reflexivity|]. simpl. auto.
    + simpl. split; [reflexivity|]. split; [reflexivity|].
      right. left. exists st. auto.
Qed.

End MoreFacts.

Lemma unparseable_event_ends_cycle_witness :
  checkCalendarAndNotify hostUTC alwaysDelivers june9BadFirst processStart
  = (inr tt,
     (forOf [] (eventBody hostUTC alwaysDelivers
                  (windowYMD hostUTC (clock june9BadFirst) 1)
                  (windowYMD hostUTC (clock june9BadFirst) 7))
        (getUpcomingEvents june9BadFirst (9 * 24 * 60) processStart).2).2).
Proof.
  refine (unparseable_event_ends_cycle hostUTC alwaysDelivers june9BadFirst
            processStart _ [] [evA] evBadTime _ _).
  - exists (lit "c"),
      {| Start.date := None; Start.dateTime := Some (lit "soon") |},
      (lit "soon").
    repeat split; reflexivity.
  - reflexivity.
Defined.

(** ** cleanDescription, again *)

Lemma stripTags_id (s : jsstring) : noOpenBeforeClose s -> stripTags s = s.
Proof.
  induction s as [|c r IH]; intros H; simpl; [reflexivity|].
  assert (Hr : noOpenBeforeClose r).
  { intros pre suf E. apply (H (c :: pre) suf). simpl. now rewrite E. }
  destruct (N.eqb_spec c LT) as [->|Hne].
  - assert (Hc : closeTag r = None) by (apply closeTag_None, (H [] r eq_refl)).
    rewrite Hc. f_equal. now apply IH.
  - f_equal. now apply IH.
Qed.

Lemma noTag_noOpenBeforeClose (s : jsstring) :
  ~ hasTag s -> noOpenBeforeClose s.
Proof.
  intros H pre suf E Hin.
  apply list_elem_of_split_l in Hin as (body & rest & -> & Hb).
  apply H. exists pre, body, rest. split; [exact E | exact Hb].
Qed.

(** X6: [stripTags] leaves a text unchanged exactly when no substring of it
    matches the tag pattern; in particular a "<" that no ">" follows is
    kept. *)
Theorem stripTags_fixpoint (s : jsstring) :
  stripTags s = s <-> ~ hasTag s.
Proof.
  split.
  - intros E. apply noOpenBeforeClose_noTag. rewrite <- E.
    apply (Replaced_clean s), stripTags_Replaced.
  - intros H. now apply stripTags_id, noTag_noOpenBeforeClose.
Qed.

(** X7: the text [cleanDescription] returns neither starts nor ends with
    white space, and cleaning it again returns it unchanged. *)
Theorem cleanDescription_stable (desc : option jsstring) :
  cleanDescription (cleanDescription desc) = cleanDescription desc
  /\ forall text, cleanDescription desc = Some text -> edgesClean text.
Proof.
  assert (H : forall text, cleanDescription desc = Some text ->
            edgesClean text /\ cleanDescription (Some text) = Some text).
  { intros text. unfold cleanDescription at 1.
    destruct desc as [d|]; simpl; [|discriminate].
    destruct (nonEmpty d); simpl; [|discriminate].
    destruct (nonEmpty (trim (stripTags d))) eqn:Hn; [|discriminate].
    intros [= <-].
    pose proof (trim_edgesClean (stripTags d)) as Hc.
    split; [exact Hc|].
    assert (Hs : stripTags (trim (stripTags d)) = trim (stripTags d)).
    { apply stripTags_id.
      destruct (trim_infix (stripTags d)) as (a & b & E).
      apply (noOpenBeforeClose_infix a _ b). rewrite <- E.
      apply (Replaced_clean d), stripTags_Replaced. }
    unfold cleanDescription. cbn [truthy]. rewrite Hn. cbn [negb].
    rewrite Hs, (trim_id _ Hc), Hn. reflexivity. }
  split.
  - destruct (cleanDescription desc) as [text|] eqn:E; [|reflexivity].
    now apply H.
  - intros text Ht. now apply H.
Qed.

Lemma cleanDescription_stable_witness :
  edgesClean (lit "Bring snacks").
Proof.
  refine (proj2 (cleanDescription_stable
            (Some (lit "<b>Bring</b> snacks <br> "))) (lit "Bring snacks") _).
  vm_compute. reflexivity.
Defined.

(** ** Dates *)

(** X8: on dates within the range a [Date] can hold, before and after the
    move, [addDays] moves the host-zone local time by whole days and keeps
    the time of day, also across the end of a month or year ([setDate] with
    a day past the month's end rolls over); an Invalid Date stays invalid;
    and where the host maps the intermediate local time back to itself, two
    moves compose to one. *)
Theorem addDays_local_shift (P : Platform) (t a b : Z) :
  (inDateRange t = true ->
   inLocalRange (LocalTime P t + a * msPerDay) = true ->
   inDateRange (UTC P (LocalTime P t + a * msPerDay)) = true ->
   addDays P (Some t) a = Some (UTC P (LocalTime P t + a * msPerDay)))
  /\ addDays P None a = None
  /\ (inDateRange t = true ->
      inLocalRange (LocalTime P t + a * msPerDay) = true ->
      inDateRange (UTC P (LocalTime P t + a * msPerDay)) = true ->
      inLocalRange (LocalTime P t + (a + b) * msPerDay) = true ->
      inDateRange (UTC P (LocalTime P t + (a + b) * msPerDay)) = true ->
      LocalTime P (UTC P (LocalTime P t + a * msPerDay))
        = LocalTime P t + a * msPerDay ->
      addDays P (addDays P (Some t) a) b = addDays P (Some t) (a + b)).
Proof.
  split; [intros _ _ _; apply addDays_shift|]. split; [reflexivity|].
  intros _ _ _ _ _ H. rewrite !addDays_shift, H. do 2 f_equal. lia.
Qed.

Lemma addDays_local_shift_witness :
  addDays hostPacific (Some (utcInstant 2024 12 28 7 30)) 6
    = Some (utcInstant 2025 1 3 7 30)
  /\ addDays hostPacific
       (addDays hostPacific (Some (utcInstant 2024 10 28 7 30)) 6) 1
     = addDays hostPacific (Some (utcInstant 2024 10 28 7 30)) (6 + 1).
Proof.
  split.
  - rewrite (proj1 (addDays_local_shift hostPacific
                      (utcInstant 2024 12 28 7 30) 6 0));
      vm_compute; reflexivity.
  - refine (proj2 (proj2 (addDays_local_shift hostPacific
              (utcInstant 2024 10 28 7 30) 6 1)) _ _ _ _ _ _);
      vm_compute; reflexivity.
Defined.

(** X9: [ymdInTZ] gives two valid dates of the Common Era the same string
    exactly when they fall on the same calendar day of the zone, so the
    loop's [===] on the strings compares calendar days; an Invalid Date
    never gets a string. *)
Theorem ymdInTZ_same_day (P : Platform) (zone : jsstring) (a b : Z) :
  commonEra (dayInTZ P zone a) = true ->
  commonEra (dayInTZ P zone b) = true ->
  (ymdInTZ P (Some a) zone = ymdInTZ P (Some b) zone
   <-> dayInTZ P zone a = dayInTZ P zone b)
  /\ ymdInTZ P None zone = inl RangeError.
Proof.
  intros _ _. split; [|reflexivity]. unfold ymdInTZ. split.
  - intros [= E]. now apply formatYMD_inj.
  - now intros ->.
Qed.

Lemma ymdInTZ_same_day_witness :
  ymdInTZ hostUTC (Some (utcInstant 2024 6 10 7 0)) TIMEZONE
  = ymdInTZ hostUTC (Some (utcInstant 2024 6 11 6 59)) TIMEZONE.
Proof.
  refine (proj2 (proj1 (ymdInTZ_same_day hostUTC TIMEZONE
            (utcInstant 2024 6 10 7 0) (utcInstant 2024 6 11 6 59) _ _)) _);
    vm_compute; reflexivity.
Defined.

(** X10: a timed event of the Common Era passes the test against the window
    date [days] days ahead exactly when its instant falls, in the configured
    zone, on the same calendar day as [addDays(now, days)]. *)
Theorem timed_event_same_day (P : Platform) (st : Start.t) (s : jsstring)
    (t now days : Z) :
  Start.dateTime st = Some s -> nonEmpty s = true ->
  Date_parse P s = Some t ->
  commonEra (dayInTZ P TIMEZONE t) = true ->
  commonEra (dayInTZ P TIMEZONE (UTC P (LocalTime P now + days * msPerDay)))
    = true ->
  eventYMD P st = inr (windowYMD P now days)
  <-> dayInTZ P TIMEZONE t
      = dayInTZ P TIMEZONE (UTC P (LocalTime P now + days * msPerDay)).
Proof.
  intros Hdt Hs Hp _ _.
  assert (Ht : truthy (Start.dateTime st) = true) by now rewrite Hdt.
  unfold eventYMD. rewrite (allDayDate_timed st Ht).
  unfold newDate. rewrite Hdt, Hp, windowYMD_shift. unfold ymdInTZ. split.
  - intros [= E]. now apply formatYMD_inj.
  - now intros ->.
Qed.

Lemma timed_event_same_day_witness :
  eventYMD hostUTCParsing stTimed
  = inr (windowYMD hostUTCParsing (utcInstant 2024 6 9 19 0) 1).
Proof.
  refine (proj2 (timed_event_same_day hostUTCParsing stTimed
            (lit "2024-06-10T09:00:00-07:00") (utcInstant 2024 6 10 16 0)
            (utcInstant 2024 6 9 19 0) 1 _ _ _ _ _) _);
    vm_compute; reflexivity.
Defined.

(** X11: where the host and the configured zone keep fixed offsets from UTC
    (no change of the clocks within reach), the window date is the calendar
    day [days] days after today's in the configured zone. *)
Theorem window_dates_exact_fixed_offsets (P : Platform) (h k now days : Z) :
  (forall t, LocalTime P t = t + h) -> (forall l, UTC P l = l - h) ->
  (forall t, zoneOffset P TIMEZONE t = k) ->
  windowYMD P now days = formatYMD (dayInTZ P TIMEZONE now + days).
Proof. exact (window_dates_fixed_offsets P h k now days). Qed.

Lemma window_dates_exact_fixed_offsets_witness :
  windowYMD hostFixed (utcInstant 2024 11 3 7 30) 1
  = formatYMD (dayInTZ hostFixed TIMEZONE (utcInstant 2024 11 3 7 30) + 1).
Proof.
  refine (window_dates_exact_fixed_offsets hostFixed 0 (-8 * hour)
            (utcInstant 2024 11 3 7 30) 1 _ _ _).
  - intros t. simpl. lia.
  - intros l. simpl. lia.
  - intros t. reflexivity.
Defined.

(** X12: when the process runs in the configured zone itself, and the host
    maps the shifted local time to an instant of the same local day, the
    window date is the calendar day [days] days after today's, also across
    a change of the clocks. *)
Theorem window_dates_host_in_zone (P : Platform) (now days : Z) :
  (forall t, LocalTime P t = t + zoneOffset P TIMEZONE t) ->
  Day (LocalTime P (UTC P (LocalTime P now + days * msPerDay)))
    = Day (LocalTime P now + days * msPerDay) ->
  windowYMD P now days = formatYMD (dayInTZ P TIMEZONE now + days).
Proof.
  intros Hl Hd. rewrite windowYMD_shift. f_equal.
  unfold dayInTZ. rewrite <- !Hl, Hd. unfold Day. apply Z.div_add.
  unfold msPerDay. lia.
Qed.

Lemma window_dates_host_in_zone_witness :
  windowYMD hostPacific (utcInstant 2024 11 3 7 30) 1
  = formatYMD (dayInTZ hostPacific TIMEZONE (utcInstant 2024 11 3 7 30) + 1).
Proof.
  refine (window_dates_host_in_zone hostPacific (utcInstant 2024 11 3 7 30) 1
            _ _).
  - intros t. reflexivity.
  - vm_compute. reflexivity.
Defined.

(** ** The earlier revision of the classification *)

(** X13: the loop of src/index.js passes an all-day date through [new Date]
    and [ymdInTZ].  Where the date string of day [n] parses as UTC midnight
    of that day and the configured zone is west of UTC, it classifies the
    event on the day before, which the later revision does not. *)
Theorem indexjs_allDay_day_before (P : Platform) (st : Start.t) (n : Z) :
  allDayDate st = Some (formatYMD n) ->
  Date_parse P (formatYMD n) = Some (n * msPerDay) ->
  - msPerDay <= zoneOffset P TIMEZONE (n * msPerDay) < 0 ->
  IndexJs.eventYMD P st = inr (formatYMD (n - 1))
  /\ eventYMD P st = inr (formatYMD n)
  /\ formatYMD (n - 1) <> formatYMD n.
Proof.
  intros Ha Hp Hz. split; [|split].
  - unfold allDayDate in Ha.
    destruct (Start.date st) as [d|] eqn:Hd; [|discriminate].
    destruct (nonEmpty d) eqn:Hne; [|discriminate].
    destruct (truthy (Start.dateTime st)) eqn:Ht; [discriminate|].
    injection Ha as ->.
    unfold IndexJs.eventYMD, orElse. rewrite Ht, Hd. unfold newDate.
    rewrite Hp. unfold ymdInTZ, dayInTZ, Day. do 2 f_equal.
    set (o := zoneOffset P TIMEZONE (n * msPerDay)) in *.
    replace (n * msPerDay + o) with ((o + msPerDay) + (n - 1) * msPerDay)
      by lia.
    rewrite Z.div_add by (unfold msPerDay; lia).
    rewrite Z.div_small by lia. lia.
  - unfold eventYMD. now rewrite Ha.
  - intros E. apply formatYMD_inj in E. lia.
Qed.

Lemma indexjs_allDay_day_before_witness :
  IndexJs.eventYMD hostUTCParsing stAllDay = inr (lit "2024-06-09")
  /\ eventYMD hostUTCParsing stAllDay = inr (lit "2024-06-10").
Proof.
  destruct (indexjs_allDay_day_before hostUTCParsing stAllDay
              (days_from_civil 2024 6 10)) as (H1 & H2 & _).
  - vm_compute. reflexivity.
  - vm_compute. reflexivity.
  - vm_compute. split; [discriminate | reflexivity].
  - split; [exact H1 | exact H2].
Defined.

(** X14: on a timed event (truthy [dateTime]) the two revisions of the
    classification agree. *)
Theorem indexjs_timed_agrees (P : Platform) (st : Start.t) :
  truthy (Start.dateTime st) = true ->
  IndexJs.eventYMD P st = eventYMD P st.
Proof.
  intros Ht. unfold IndexJs.eventYMD, eventYMD, orElse.
  now rewrite Ht, (allDayDate_timed st Ht).
Qed.

Lemma indexjs_timed_agrees_witness :
  IndexJs.eventYMD hostUTCParsing stTimed = eventYMD hostUTCParsing stTimed.
Proof.
  refine (indexjs_timed_agrees hostUTCParsing stTimed _). reflexivity.
Defined.

(** ** The process *)

Section ProcessFacts.

Variable P : Platform.
Variable slack : nat -> bool.








Lemma main_exit_aux (L : Launch) (w : World) :
  RUN_ONCE L = Some (lit "true") ->
  main P slack L w
  = (Exited 0, (checkCalendarAndNotify P slack (firstRun L) w).2).
Proof.
  unfold main.
  pose proof (proj1 (Inv_cycle P slack (firstRun L) w)) as Hr.
  destruct (checkCalendarAndNotify P slack (firstRun L) w) as [[err|[]] w1];
    simpl in Hr; [discriminate|]. simpl.
  intros H. now rewrite (bool_decide_eq_true_2 _ H).
Qed.

Lemma eventBody_posts_first (th : Threshold) (tomorrowYMD weekYMD : jsstring)
    (e : Event.t) (i : jsstring) (st : Start.t) (w : World) :
  Event.id e = Some i -> nonEmpty i = true -> Event.start e = Some st ->
  truthy (orElse (Start.dateTime st) (Start.date st)) = true ->
  tomorrowYMD <> weekYMD ->
  eventYMD P st
    = inr (match th with OneDay => tomorrowYMD | OneWeek => weekYMD end) ->
  i ∉ reminded th w ->
  exists r rest,
    outbox (eventBody P slack tomorrowYMD weekYMD e w).2 = outbox w ++ r :: rest
    /\ req_event r = e /\ req_label r = label th.
Proof.
  intros Hid Hne Hst Htr Hdiff Hy Hni.
  destruct (eventYMD_prettyStart P e st _ Hst Hy) as [pretty Hp].
  rewrite (eventBody_blocks P slack), Hid, Hst, Hne, Htr. cbn [negb].
  unfold mbind at 1. unfold M_bind at 1. unfold liftE. rewrite Hy.
  unfold mbind, M_bind. destruct th.
  - destruct (remindBlock_fire P slack OneDay tomorrowYMD e i pretty w Hni Hp)
      as (w1 & -> & Ho1).
    destruct (slack (length (outbox w))).
    + destruct (remindBlock_outbox P slack OneWeek weekYMD tomorrowYMD e i w1)
        as (new & Ho2 & _).
      eexists. exists new. rewrite Ho2, Ho1, <- app_assoc.
      split; [reflexivity|]. simpl. auto.
    + eexists. exists []. simpl. rewrite Ho1.
      split; [reflexivity|]. simpl. auto.
  - rewrite (remindBlock_skip P slack) by (left; congruence).
    destruct (remindBlock_fire P slack OneWeek weekYMD e i pretty w Hni Hp)
      as (w1 & -> & Ho1).
    eexists. exists []. split; [exact Ho1|]. simpl. auto.
Qed.

(** X17: the reminded sets do not outlive the process.  A process started
    in run-once mode whose fetch returns a qualifying event first posts a
    request for it, for its threshold, as the first post of the process,
    whatever earlier processes have delivered, and exits with code 0. *)
Theorem fresh_process_posts_again (L : Launch) (w0 : World)
    (e : Event.t) (rest : list Event.t) (i : jsstring) (st : Start.t)
    (th : Threshold) :
  RUN_ONCE L = Some (lit "true") ->
  getUpcomingEvents (firstRun L) (9 * 24 * 60) processStart
    = (inr (e :: rest), w0) ->
  Event.id e = Some i -> nonEmpty i = true -> Event.start e = Some st ->
  truthy (orElse (Start.dateTime st) (Start.date st)) = true ->
  windowYMD P (clock (firstRun L)) 1 <> windowYMD P (clock (firstRun L)) 7 ->
  eventYMD P st
    = inr (windowYMD P (clock (firstRun L))
             (match th with OneDay => 1 | OneWeek => 7 end)) ->
  exists r more,
    (main P slack L processStart).1 = Exited 0
    /\ outbox (main P slack L processStart).2 = r :: more
    /\ req_event r = e /\ req_label r = label th.
Proof.
  intros Hro Hf Hid Hne Hst Htr Hdiff Hy.
  rewrite (main_exit_aux L processStart Hro). simpl.
  rewrite (checkCalendarAndNotify_unfold P slack), Hf. simpl.
  destruct (getUpcomingEvents_run (firstRun L) (9 * 24 * 60) processStart)
    as (res & w0' & E & Ho & Hd & Hw & _).
  rewrite Hf in E. injection E as _ <-.
  assert (Hni : i ∉ reminded th w0).
  { destruct th; simpl; [rewrite Hd | rewrite Hw]; apply not_elem_of_empty. }
  assert (Hy' : eventYMD P st
                = inr (match th with
                       | OneDay => windowYMD P (clock (firstRun L)) 1
                       | OneWeek => windowYMD P (clock (firstRun L)) 7
                       end)) by (rewrite Hy; now destruct th).
  destruct (eventBody_posts_first th _ _ e i st w0 Hid Hne Hst Htr Hdiff Hy' Hni)
    as (r & more & Hb & He & Hl).
  unfold mbind, M_bind.
  set (body := eventBody P slack (windowYMD P (clock (firstRun L)) 1)
                 (windowYMD P (clock (firstRun L)) 7)) in *.
  destruct (body e w0) as [[err|[]] w1] eqn:Eb; simpl in Hb.
  - exists r, more. split; [reflexivity|]. simpl. rewrite Hb, Ho. auto.
  - destruct (NoPost_forOf P slack (windowYMD P (clock (firstRun L)) 1)
                (windowYMD P (clock (firstRun L)) 7) rest w1)
      as (new & Hn & _).
    fold body in Hn. exists r, (more ++ new). split; [reflexivity|].
    rewrite Hn, Hb, Ho. simpl. auto.
Qed.

End ProcessFacts.


Lemma fresh_process_posts_again_witness :
  exists r more,
    (main hostUTC alwaysDelivers runOnce processStart).1 = Exited 0
    /\ outbox (main hostUTC alwaysDelivers runOnce processStart).2 = r :: more
    /\ req_event r = evA /\ req_label r = label OneDay.
Proof.
  refine (fresh_process_posts_again hostUTC alwaysDelivers runOnce _ evA []
            (lit "a") stAllDay OneDay _ _ _ _ _ _ _ _).
  - reflexivity.
  - reflexivity.
  - reflexivity.
  - reflexivity.
  - reflexivity.
  - reflexivity.
  - intros H. vm_compute in H. discriminate H.
  - vm_compute. reflexivity.
Defined.

(** ** Day numbers and civil dates *)

Lemma civil_ok_all : allFrom 400 0 civil_ok_year = true.
Proof. vm_cast_no_check (eq_refl true). Qed.

Lemma numeric_ok_all : allFrom (Z.to_nat 9000) 1000 numeric_ok = true.
Proof. vm_compute. reflexivity. Qed.

Lemma validDate_range (y m d : Z) :
  validDate y m d = true -> 1 <= m <= 12 /\ 1 <= d <= 31.
Proof.
  unfold validDate, daysInMonth. intros H.
  repeat (apply andb_prop in H; destruct H as [H ?]).
  destruct (m =? 2); [destruct (isLeap y)|destruct (_ || _)]; lia.
Qed.

Lemma isLeap_period (y : Z) : isLeap (y mod 400) = isLeap y.
Proof.
  unfold isLeap.
  rewrite (Z.mod_mod_divide y 400 4) by now exists 100.
  rewrite (Z.mod_mod_divide y 400 100) by now exists 4.
  rewrite (Z.mod_mod_divide y 400 400) by now exists 1.
  reflexivity.
Qed.

Lemma validDate_period (y m d : Z) :
  validDate (y mod 400) m d = validDate y m d.
Proof. unfold validDate, daysInMonth. now rewrite isLeap_period. Qed.

Lemma days_from_civil_period (y m d q : Z) :
  days_from_civil (y + q * 400) m d = days_from_civil y m d + q * 146097.
Proof.
  unfold days_from_civil.
  replace (y + q * 400 - (if m <=? 2 then 1 else 0))
    with (y - (if m <=? 2 then 1 else 0) + q * 400) by lia.
  rewrite Z.div_add, Z.mod_add by lia. lia.
Qed.

Lemma civil_from_days_period (z q : Z) :
  civil_from_days (z + q * 146097)
  = let '(y, m, d) := civil_from_days z in (y + q * 400, m, d).
Proof.
  unfold civil_from_days.
  replace (z + q * 146097 + 719468) with (z + 719468 + q * 146097) by lia.
  rewrite Z.div_add, Z.mod_add by lia. f_equal. f_equal. lia.
Qed.

Lemma civil_from_days_from_civil (y m d : Z) :
  validDate y m d = true ->
  civil_from_days (days_from_civil y m d) = (y, m, d).
Proof.
  intros Hv. pose proof (validDate_range _ _ _ Hv) as [Hm Hd].
  pose proof (Z.div_mod y 400 ltac:(lia)) as Hy.
  pose proof (Z.mod_pos_bound y 400 ltac:(lia)) as Hb.
  replace y with (y mod 400 + (y / 400) * 400) at 1 by lia.
  rewrite days_from_civil_period, civil_from_days_period.
  rewrite <- validDate_period in Hv.
  pose proof (allFrom_spec civil_ok_year 400 0 civil_ok_all (y mod 400)
                ltac:(lia)) as H1.
  unfold civil_ok_year in H1.
  pose proof (allFrom_spec _ 12 1 H1 m ltac:(lia)) as H2. cbv beta in H2.
  pose proof (allFrom_spec _ 31 1 H2 d ltac:(lia)) as H3. cbv beta in H3.
  unfold civil_ok in H3. rewrite Hv in H3.
  destruct (civil_from_days (days_from_civil (y mod 400) m d)) as [[y' m'] d'].
  repeat (apply andb_prop in H3; destruct H3 as [H3 ?]).
  f_equal; [f_equal|]; lia.
Qed.

Lemma numeric_fourDigit (y : Z) :
  1000 <= y <= 9999 -> numeric y = fourDigit y.
Proof.
  intros H.
  assert (Hr : 1000 <= y < 1000 + Z.of_nat (Z.to_nat 9000))
    by (rewrite Z2Nat.id; lia).
  pose proof (allFrom_spec numeric_ok _ 1000 numeric_ok_all y Hr) as Hy.
  now apply bool_decide_eq_true in Hy.
Qed.



(** X19: an all-day event dated "YYYY-MM-DD" (a valid date, four-digit year)
    passes the test against the window date [days] days ahead exactly when
    [addDays(now, days)] falls, in the configured zone, on that calendar
    date. *)
Theorem allDay_event_same_day (P : Platform) (st : Start.t)
    (y m d now days : Z) :
  validDate y m d = true -> 1000 <= y <= 9999 ->
  allDayDate st = Some (isoDate y m d) ->
  eventYMD P st = inr (windowYMD P now days)
  <-> dayInTZ P TIMEZONE (UTC P (LocalTime P now + days * msPerDay))
      = days_from_civil y m d.
Proof.
  intros Hv Hy Ha. unfold eventYMD. rewrite Ha, windowYMD_shift.
  assert (E : isoDate y m d = formatYMD (days_from_civil y m d)).
  { unfold formatYMD, isoDate.
    rewrite (civil_from_days_from_civil _ _ _ Hv).
    now rewrite (numeric_fourDigit y Hy). }
  rewrite E. split.
  - intros [= H]. symmetry. now apply formatYMD_inj.
  - now intros ->.
Qed.

Lemma allDay_event_same_day_witness :
  eventYMD hostUTC stAllDay
  = inr (windowYMD hostUTC (utcInstant 2024 6 9 19 0) 1).
Proof.
  refine (proj2 (allDay_event_same_day hostUTC stAllDay 2024 6 10
            (utcInstant 2024 6 9 19 0) 1 _ _ _) _).
  - reflexivity.
  - lia.
  - vm_compute. reflexivity.
  - vm_compute. reflexivity.
Defined.

(** ** More on the loop body *)

Section BodyFacts.

Variable P : Platform.
Variable slack : nat -> bool.

(** X20: the loop body does nothing for an event whose date is neither
    window date, and nothing for a threshold whose set already holds the
    event's id: when for each threshold the date differs or the id is
    recorded, no request is made and the state is unchanged. *)
Theorem event_outside_windows_ignored (tomorrowYMD weekYMD ymd : jsstring)
    (e : Event.t) (i : jsstring) (st : Start.t) (w : World) :
  Event.id e = Some i -> Event.start e = Some st ->
  eventYMD P st = inr ymd ->
  ymd <> tomorrowYMD \/ i ∈ remindedDay w ->
  ymd <> weekYMD \/ i ∈ remindedWeek w ->
  eventBody P slack tomorrowYMD weekYMD e w = (inr tt, w).
Proof.
  intros Hid Hst Hy Hd Hw. rewrite (eventBody_blocks P slack), Hid, Hst.
  destruct (negb (nonEmpty i)); [reflexivity|].
  destruct (negb (truthy (orElse (Start.dateTime st) (Start.date st))));
    [reflexivity|].
  unfold mbind at 1. unfold M_bind at 1. unfold liftE. rewrite Hy.
  unfold mbind, M_bind.
  rewrite (remindBlock_skip P slack OneDay) by exact Hd.
  now rewrite (remindBlock_skip P slack OneWeek) by exact Hw.
Qed.

(** X21: the success path.  When the loop body reaches an event whose date
    equals the window date of a threshold, whose id is not yet recorded for
    it, and Slack accepts the post, the first request it makes is a
    delivered one for that event and threshold, and afterwards the id is in
    the threshold's reminded set. *)
Theorem qualifying_event_delivered_and_recorded (th : Threshold)
    (tomorrowYMD weekYMD : jsstring) (e : Event.t) (i : jsstring)
    (st : Start.t) (w : World) :
  Event.id e = Some i -> nonEmpty i = true -> Event.start e = Some st ->
  truthy (orElse (Start.dateTime st) (Start.date st)) = true ->
  tomorrowYMD <> weekYMD ->
  eventYMD P st
    = inr (match th with OneDay => tomorrowYMD | OneWeek => weekYMD end) ->
  i ∉ reminded th w ->
  slack (length (outbox w)) = true ->
  exists r rest,
    outbox (eventBody P slack tomorrowYMD weekYMD e w).2 = outbox w ++ r :: rest
    /\ req_event r = e /\ req_label r = label th /\ req_delivered r = true
    /\ i ∈ reminded th (eventBody P slack tomorrowYMD weekYMD e w).2.
Proof.
  intros Hid Hne Hst Htr Hdiff Hy Hni Hk.
  destruct (eventYMD_prettyStart P e st _ Hst Hy) as [pretty Hp].
  assert (Hfirst : exists r rest,
            outbox (eventBody P slack tomorrowYMD weekYMD e w).2
              = outbox w ++ r :: rest
            /\ req_event r = e /\ req_label r = label th
            /\ req_delivered r = true).
  { rewrite (eventBody_blocks P slack), Hid, Hst, Hne, Htr. cbn [negb].
    unfold mbind at 1. unfold M_bind at 1. unfold liftE. rewrite Hy.
    unfold mbind, M_bind. destruct th.
    - destruct (remindBlock_fire P slack OneDay tomorrowYMD e i pretty w Hni Hp)
        as (w1 & -> & Ho1). rewrite Hk in *.
      destruct (remindBlock_outbox P slack OneWeek weekYMD tomorrowYMD e i w1)
        as (new & Ho2 & _).
      eexists. exists new. rewrite Ho2, Ho1, <- app_assoc.
      split; [reflexivity|]. simpl. auto.
    - rewrite (remindBlock_skip P slack) by (left; congruence).
      destruct (remindBlock_fire P slack OneWeek weekYMD e i pretty w Hni Hp)
        as (w1 & -> & Ho1). rewrite Hk in *.
      eexists. exists []. split; [exact Ho1|]. simpl. auto. }
  destruct Hfirst as (r & rest & Ho & He & Hl & Hd).
  exists r, rest. repeat (split; [assumption|]).
  destruct (Inv_eventBody P slack tomorrowYMD weekYMD e w) as (new & G & _).
  apply (Grow_reminded_iff P slack _ _ _ i th G). right.
  destruct G as (Ho' & _). rewrite Ho in Ho'. apply app_inv_head in Ho'.
  subst new. exists r. split; [left|]. split; [|exact Hd].
  split; [now rewrite He | exact Hl].
Qed.

Lemma requestsAbout_nil (e : Event.t) : requestsAbout e [].
Proof.
  exists [], []. split; [reflexivity|]. split; [simpl; lia|].
  split; [simpl; lia|]. split; intros r Hr; inversion Hr.
Qed.

Lemma eventBody_requests_bound (tomorrowYMD weekYMD : jsstring) (e : Event.t)
    (w : World) :
  exists g,
    outbox (eventBody P slack tomorrowYMD weekYMD e w).2 = outbox w ++ g
    /\ requestsAbout e g.
Proof.
  assert (Hnil : exists g, outbox w = outbox w ++ g /\ requestsAbout e g).
  { exists []. rewrite app_nil_r. split; [reflexivity|].
    apply requestsAbout_nil. }
  rewrite (eventBody_blocks P slack).
  destruct (Event.id e) as [i|]; [|exact Hnil].
  destruct (Event.start e) as [st|]; [|exact Hnil].
  destruct (negb (nonEmpty i)); [exact Hnil|].
  destruct (negb (truthy (orElse (Start.dateTime st) (Start.date st))));
    [exact Hnil|].
  unfold mbind at 1. unfold M_bind at 1. unfold liftE.
  destruct (eventYMD P st) as [err|ymd]; [exact Hnil|].
  unfold mbind, M_bind.
  destruct (remindBlock_outbox P slack OneDay tomorrowYMD ymd e i w)
    as (n1 & Ho1 & L1 & H1).
  destruct (remindBlock P slack OneDay tomorrowYMD ymd e i w) as [[err|[]] w1];
    simpl in Ho1.
  - exists n1. split; [exact Ho1|].
    exists n1, []. rewrite app_nil_r. split; [reflexivity|].
    split; [exact L1|]. split; [simpl; lia|].
    split; [exact H1|]. intros r Hr. inversion Hr.
  - destruct (remindBlock_outbox P slack OneWeek weekYMD ymd e i w1)
      as (n2 & Ho2 & L2 & H2).
    exists (n1 ++ n2). rewrite Ho2, Ho1, app_assoc. split; [reflexivity|].
    exists n1, n2. split; [reflexivity|]. split; [exact L1|].
    split; [exact L2|]. split; [exact H1 | exact H2].
Qed.

Lemma forOf_requests_bound (tomorrowYMD weekYMD : jsstring)
    (events : list Event.t) (w : World) :
  exists groups,
    outbox (forOf events (eventBody P slack tomorrowYMD weekYMD) w).2
      = outbox w ++ concat groups
    /\ Forall2 requestsAbout events groups.
Proof.
  revert w. induction events as [|e rest IH]; intros w; simpl forOf.
  - exists []. simpl. rewrite app_nil_r. split; [reflexivity|]. constructor.
  - unfold mbind, M_bind.
    destruct (eventBody_requests_bound tomorrowYMD weekYMD e w)
      as (g & Ho1 & Hg).
    destruct (eventBody P slack tomorrowYMD weekYMD e w) as [[err|[]] w1];
      simpl in Ho1.
    + exists (g :: map (fun _ => []) rest). split.
      * simpl. rewrite Ho1. f_equal.
        clear. induction rest as [|x rest IHr]; simpl;
          [now rewrite app_nil_r | exact IHr].
      * constructor; [exact Hg|].
        clear. induction rest as [|x rest IHr]; simpl; constructor;
          [apply requestsAbout_nil | exact IHr].
    + destruct (IH w1) as (groups & Ho2 & HF).
      exists (g :: groups). simpl. rewrite Ho2, Ho1, app_assoc.
      split; [reflexivity|]. constructor; assumption.
Qed.

(** X22: what a cycle posts follows the batch the fetch returned: event by
    event in the order of the batch, at most one request labelled "1 day"
    and then at most one labelled "1 week" about that event, and nothing
    about anything else. *)
Theorem cycle_requests_from_batch (c : Cycle) (w w0 : World)
    (events : list Event.t) :
  getUpcomingEvents c (9 * 24 * 60) w = (inr events, w0) ->
  exists groups,
    outbox (checkCalendarAndNotify P slack c w).2
      = outbox w ++ concat groups
    /\ Forall2 requestsAbout events groups.
Proof.
  intros Hf. rewrite (checkCalendarAndNotify_unfold P slack), Hf. simpl.
  destruct (getUpcomingEvents_run c (9 * 24 * 60) w)
    as (res & w0' & E & Ho & _).
  rewrite Hf in E. injection E as _ <-.
  destruct (forOf_requests_bound (windowYMD P (clock c) 1)
              (windowYMD P (clock c) 7) events w0) as (groups & Hn & HF).
  exists groups. split; [now rewrite Hn, Ho | exact HF].
Qed.

End BodyFacts.

(** X23: [stripTags] computes the replacement the pattern prescribes, and
    that replacement is unique: [out] is the text with every leftmost match
    of the tag pattern removed exactly when [out = stripTags s]. *)
Theorem stripTags_is_the_replacement (s out : jsstring) :
  Replaced s out <-> out = stripTags s.
Proof.
  split.
  - intros H. apply (Replaced_functional s); [exact H|apply stripTags_Replaced].
  - intros ->. apply stripTags_Replaced.
Qed.

Lemma event_outside_windows_ignored_witness :
  eventBody hostUTC alwaysDelivers (lit "2024-06-11") (lit "2024-06-17")
    evA processStart = (inr tt, processStart).
Proof.
  refine (event_outside_windows_ignored hostUTC alwaysDelivers
            (lit "2024-06-11") (lit "2024-06-17") (lit "2024-06-10")
            evA (lit "a") stAllDay processStart _ _ _ _ _).
  - reflexivity.
  - reflexivity.
  - reflexivity.
  - left. intros H. vm_compute in H. discriminate H.
  - left. intros H. vm_compute in H. discriminate H.
Defined.

Lemma qualifying_event_delivered_and_recorded_witness :
  exists r rest,
    outbox (eventBody hostUTC alwaysDelivers (lit "2024-06-10")
              (lit "2024-06-16") evA processStart).2
      = outbox processStart ++ r :: rest
    /\ req_event r = evA /\ req_label r = label OneDay
    /\ req_delivered r = true
    /\ lit "a" ∈ reminded OneDay
         (eventBody hostUTC alwaysDelivers (lit "2024-06-10")
            (lit "2024-06-16") evA processStart).2.
Proof.
  refine (qualifying_event_delivered_and_recorded hostUTC alwaysDelivers
            OneDay (lit "2024-06-10") (lit "2024-06-16") evA (lit "a")
            stAllDay processStart _ _ _ _ _ _ _ _).
  - reflexivity.
  - reflexivity.
  - reflexivity.
  - reflexivity.
  - intros H. vm_compute in H. discriminate H.
  - reflexivity.
  - apply not_elem_of_empty.
  - reflexivity.
Defined.

Lemma cycle_requests_from_batch_witness :
  exists groups,
    outbox (checkCalendarAndNotify hostUTC alwaysDelivers june9Two
              processStart).2 = outbox processStart ++ concat groups
    /\ Forall2 requestsAbout [evA; evNoStart] groups.
Proof.
  refine (cycle_requests_from_batch hostUTC alwaysDelivers june9Two
            processStart _ [evA; evNoStart] _).
  reflexivity.
Defined.

(** ** Two runs at once *)

Section Overlap.

Variable P : Platform.
Variable slack : nat -> bool.

Lemma resume_list_posts (c : Cycle) (e : Event.t) (rest : list Event.t)
    (i : jsstring) (st : Start.t) (w : World) :
  listing c (fetchClock c) (fetchClock c + 9 * 24 * 60 * 60 * 1000)
    = Some (Some (e :: rest)) ->
  Event.id e = Some i -> nonEmpty i = true -> Event.start e = Some st ->
  allDayDate st = Some (windowYMD P (clock c) 1) ->
  i ∉ remindedDay w ->
  resume P slack (AwaitList c) w
  = (AwaitPost c e i (windowYMD P (clock c) 1) OneDay
       (slack (length (outbox w))) rest,
     post (mkRequest e (lit "1 day") (windowYMD P (clock c) 1)
             (slack (length (outbox w)))) w).
Proof.
  intros Hlist Hid Hne Hst Hall Hnot.
  assert (Hstr : truthy (orElse (Start.dateTime st) (Start.date st)) = true).
  { unfold allDayDate in Hall. unfold orElse.
    destruct (Start.date st) as [d|]; [|discriminate Hall].
    destruct (nonEmpty d) eqn:Hd; [|discriminate Hall].
    destruct (truthy (Start.dateTime st)); [discriminate Hall|exact Hd]. }
  cbn [resume]. rewrite Hlist.
  change (default [] (Some (e :: rest))) with (e :: rest). cbn [loopFrom].
  rewrite Hid, Hst, Hne, Hstr. cbn [negb].
  unfold eventYMD. rewrite Hall.
  unfold startBlock, prettyStart. rewrite Hst, Hall.
  rewrite (bool_decide_eq_true_2 _ eq_refl).
  cbn [reminded]. rewrite (bool_decide_eq_false_2 _ Hnot). reflexivity.
Qed.

(** X24: the callback given to [cron.schedule] does not await the run, so a
    second run can start while the first waits for Slack.  When two runs
    meet the same batch, whose first event is an all-day event dated
    tomorrow and not yet recorded, each of them posts a "1 day" request
    about that event before either records it: two requests for the one
    pair, both delivered if Slack accepts both. *)
Theorem overlapping_runs_post_twice (c : Cycle) (e : Event.t)
    (rest : list Event.t) (i : jsstring) (st : Start.t) (w : World) :
  googleAuthed w = true ->
  listing c (fetchClock c) (fetchClock c + 9 * 24 * 60 * 60 * 1000)
    = Some (Some (e :: rest)) ->
  Event.id e = Some i -> nonEmpty i = true -> Event.start e = Some st ->
  allDayDate st = Some (windowYMD P (clock c) 1) ->
  i ∉ remindedDay w ->
  let r := runSchedule P slack [0; 1; 0; 1]%nat [Idle c; Idle c] w in
  let request k :=
    mkRequest e (lit "1 day") (windowYMD P (clock c) 1) (slack k) in
  outbox r.2
  = outbox w ++ [request (length (outbox w));
                 request (S (length (outbox w)))]
  /\ remindedDay r.2 = remindedDay w
  /\ length (requestsFor i OneDay (outbox r.2))
     = (length (requestsFor i OneDay (outbox w)) + 2)%nat.
Proof.
  intros Hauth Hlist Hid Hne Hst Hall Hnot. cbv zeta.
  assert (Hidle : forall w0, googleAuthed w0 = true ->
            resume P slack (Idle c) w0 = (AwaitList c, w0)).
  { intros w0 H. cbn [resume]. now rewrite H. }
  cbn [runSchedule]. unfold stepAt.
  cbn [lookup list_lookup]. rewrite (Hidle w Hauth).
  cbn [insert list_insert lookup list_lookup]. rewrite (Hidle w Hauth).
  cbn [insert list_insert lookup list_lookup].
  rewrite (resume_list_posts c e rest i st w Hlist Hid Hne Hst Hall Hnot).
  cbn [insert list_insert lookup list_lookup].
  rewrite (resume_list_posts c e rest i st
             (post (mkRequest e (lit "1 day") (windowYMD P (clock c) 1)
                      (slack (length (outbox w)))) w)
             Hlist Hid Hne Hst Hall Hnot).
  cbn [insert list_insert snd post outbox remindedDay].
  rewrite length_app, Nat.add_1_r, <- app_assoc.
  split; [reflexivity|]. split; [reflexivity|].
  unfold requestsFor. rewrite !List.filter_app, !length_app.
  assert (Hfor : forall d,
            isFor i OneDay
              (mkRequest e (lit "1 day") (windowYMD P (clock c) 1) d)
            = true).
  { intros d. unfold isFor, mkRequest. cbn [req_event req_label].
    rewrite Hid. now rewrite !(bool_decide_eq_true_2 _ eq_refl). }
  cbn [List.filter]. rewrite !Hfor. reflexivity.
Qed.

End Overlap.

Lemma overlapping_runs_post_twice_witness :
  map req_delivered
    (outbox (runSchedule hostUTC alwaysDelivers [0; 1; 0; 1]%nat
               [Idle june9; Idle june9] processAuthed).2)
  = [true; true].
Proof.
  rewrite (proj1 (overlapping_runs_post_twice hostUTC alwaysDelivers june9
                    evA [] (lit "a") stAllDay processAuthed
                    eq_refl eq_refl eq_refl eq_refl eq_refl eq_refl
                    ltac:(apply not_elem_of_empty))).
  reflexivity.
Defined.
